(** * portfolio-backend: the contact-form relay, embedded and verified

  Shallow embedding of [server.js] (module [Server]) and of the second,
  older deployment of the same relay (module [Legacy]), followed by the
  properties the specification states about them.

  Conventions of the embedding.
  - A JavaScript string is a Rocq [string], read as its UTF-8 bytes.  The
    only characters the code inspects are ASCII (['<'], ['>'], ['/'], the
    letters of MIME types), and no ASCII byte occurs inside a multi-byte
    UTF-8 sequence, so scanning bytes and scanning UTF-16 code units agree
    on every operation modelled here.
  - A value taken from a request body is a [JsValue]; an absent key is
    [JUndefined].
  - Code that can throw returns a [Result]; code that logs, touches the
    file system, calls the bot API or writes the HTTP response runs in the
    monad [M], a state monad over [World] with exceptions.  The state is
    kept when an exception is thrown, as in JavaScript.
  - The platform is POSIX: [path.sep] is ["/"]. *)

From Stdlib Require Import ZArith NArith Ascii String List Lia Bool DecimalString.
From stdpp Require Import base strings list gmap sets.

Local Open Scope Z_scope.

(** ** JavaScript values, truthiness and errors *)

Module Js.

(** The JSON-shaped values Express and multer put into [req.body]. Numbers
    are carried as integers: the code only ever tests them for truthiness
    (zero or not) and for being strings (never). *)
#[warning="-register-all"]
Inductive JsValue : Type :=
| JUndefined
| JNull
| JBool (b : bool)
| JNum (n : Z)
| JStr (s : string)
| JArr (items : list JsValue)
| JObj (fields : list (string * JsValue)).

Definition str_nonempty (s : string) : bool :=
  match s with EmptyString => false | String _ _ => true end.

(** [ToBoolean]: what [!v], [a || b] and [if (v)] test. *)
Definition truthy (v : JsValue) : bool :=
  match v with
  | JUndefined | JNull => false
  | JBool b => b
  | JNum n => negb (n =? 0)
  | JStr s => str_nonempty s
  | JArr _ | JObj _ => true
  end.

Definition is_string (v : JsValue) : bool :=
  match v with JStr _ => true | _ => false end.

(** Thrown values. Every error of this program is an [Error] object with a
    string [message]; [instanceof multer.MulterError] is the test
    [is_multer]. *)
Inductive ErrorKind : Type :=
| KError
| KTypeError
| KMulterError (code : string).

Record JsError : Type := mkError { kind : ErrorKind; message : string }.

Definition is_multer (e : JsError) : bool :=
  match kind e with KMulterError _ => true | _ => false end.

(** [e.code === c] *)
Definition has_code (e : JsError) (c : string) : bool :=
  match kind e with KMulterError c' => String.eqb c' c | _ => false end.

Inductive Result (A : Type) : Type :=
| Ok (a : A)
| Throw (e : JsError).
Arguments Ok {A} a.
Arguments Throw {A} e.

Definition is_ok {A} (r : Result A) : bool :=
  match r with Ok _ => true | Throw _ => false end.

End Js.
Export Js.

(** ** String primitives of the JavaScript standard library *)

Module Str.

Definition nl : string := String (ascii_of_nat 10) EmptyString.

(** [a.startsWith(b)] *)
Definition startsWith (a b : string) : bool := String.prefix b a.

(** [a.endsWith(b)]: some tail of [a] is [b]. *)
Fixpoint endsWith (a b : string) : bool :=
  String.eqb a b ||
  match a with
  | EmptyString => false
  | String _ a' => endsWith a' b
  end.

(** [a.includes(b)]: [b] starts some tail of [a]. *)
Fixpoint includes (a b : string) : bool :=
  String.prefix b a ||
  match a with
  | EmptyString => false
  | String _ a' => includes a' b
  end.

(** [s.replace(/c/g, rep)] for a pattern that is one literal character. *)
Fixpoint replaceAll (c : ascii) (rep : string) (s : string) : string :=
  match s with
  | EmptyString => EmptyString
  | String a s' =>
      if Ascii.eqb a c then rep +:+ replaceAll c rep s'
      else String a (replaceAll c rep s')
  end.

(** [c] occurs in [s]. *)
Fixpoint occurs (c : ascii) (s : string) : bool :=
  match s with
  | EmptyString => false
  | String a s' => Ascii.eqb a c || occurs c s'
  end.

(** Decimal rendering of a non-negative number, as [n + ''] gives it. *)
Definition decimal (n : N) : string := NilZero.string_of_uint (N.to_uint n).

End Str.

(** ** Node's [path] module, POSIX flavour *)

Module Path.

Definition sep : string := "/".
Definition slash : ascii := "/"%char.

Definition isAbsolute (p : string) : bool :=
  match p with
  | String c _ => Ascii.eqb c slash
  | EmptyString => false
  end.

(** [p.split('/')] *)
Fixpoint split (p : string) : list string :=
  match p with
  | EmptyString => [EmptyString]
  | String c p' =>
      if Ascii.eqb c slash then EmptyString :: split p'
      else match split p' with
           | h :: t => String c h :: t
           | [] => [String c EmptyString]
           end
  end.

(** [segs.join('/')] *)
Fixpoint joinSegs (segs : list string) : string :=
  match segs with
  | [] => EmptyString
  | [s] => s
  | s :: rest => s +:+ sep +:+ joinSegs rest
  end.

(** [normalizeString(path, allowAboveRoot, '/', ...)], on the segments of
    the path. [acc] is the result so far, last segment first. Empty
    segments and ["."] are dropped; [".."] removes the last kept segment
    unless there is none or it is itself [".."], in which case it is kept
    when [allowAboveRoot] and dropped otherwise. *)
Fixpoint normalizeGo (allowAboveRoot : bool) (acc segs : list string)
  : list string :=
  match segs with
  | [] => rev acc
  | s :: rest =>
      if String.eqb s "" || String.eqb s "." then
        normalizeGo allowAboveRoot acc rest
      else if String.eqb s ".." then
        match acc with
        | top :: acc' =>
            if String.eqb top ".." then
              normalizeGo allowAboveRoot
                (if allowAboveRoot then ".." :: acc else acc) rest
            else normalizeGo allowAboveRoot acc' rest
        | [] =>
            normalizeGo allowAboveRoot
              (if allowAboveRoot then [".."] else []) rest
        end
      else normalizeGo allowAboveRoot (s :: acc) rest
  end.

Definition normalizeSegs (allowAboveRoot : bool) (p : string) : list string :=
  normalizeGo allowAboveRoot [] (split p).

Definition normalizeString (p : string) (allowAboveRoot : bool) : string :=
  joinSegs (normalizeSegs allowAboveRoot p).

(** [path.resolve(p)] with the process working directory [cwd]: the loop
    over the arguments from the right, then the current directory, until
    an absolute prefix is found; empty entries are skipped. *)
Definition resolveRaw (cwd p : string) : string * bool :=
  let step1 : string * bool :=
    if String.eqb p "" then (EmptyString, false)
    else (p +:+ "/" +:+ "", isAbsolute p) in
  if snd step1 then step1
  else if String.eqb cwd "" then step1
  else (cwd +:+ "/" +:+ fst step1, isAbsolute cwd).

Definition resolve (cwd p : string) : string :=
  let '(raw, resolvedAbsolute) := resolveRaw cwd p in
  let resolvedPath := normalizeString raw (negb resolvedAbsolute) in
  if resolvedAbsolute then "/" +:+ resolvedPath
  else if str_nonempty resolvedPath then resolvedPath else ".".

(** [path.normalize(p)] *)
Definition normalize (p : string) : string :=
  if String.eqb p "" then "." else
  let isAbs := isAbsolute p in
  let trailingSeparator := Str.endsWith p "/" in
  let q := normalizeString p (negb isAbs) in
  if String.eqb q "" then
    (if isAbs then "/" else if trailingSeparator then "./" else ".")
  else
    let q' := if trailingSeparator then q +:+ "/" else q in
    if isAbs then "/" +:+ q' else q'.

(** [path.join(a, b)]: the non-empty arguments joined by ["/"], then
    normalised. *)
Definition join (a b : string) : string :=
  let joined :=
    if String.eqb a "" then b
    else if String.eqb b "" then a
    else a +:+ "/" +:+ b in
  if String.eqb joined "" then "." else normalize joined.

(** The components of a path: its segments between separators. This is
    the reading of a path that "descendant of a directory" refers to. *)
Definition components (p : string) : list string :=
  filter (λ s, s ≠ EmptyString) (split p).

End Path.

(** ** The world the handlers act on *)

Module Res.
(** One [res.status(s).json({success, message})]. *)
Record Response : Type :=
  mkResponse { status : Z; success : bool; message : string }.
End Res.

Module Effects.

(** What the bot API is sent. [JsonBody] is the body of [sendMessage];
    [FormBody] is the multipart form of [sendPhoto] / [sendDocument]: the
    chat id, the name of the file field, the path the read stream was
    opened on, the file name, and the caption when one was appended. *)
Inductive CallBody : Type :=
| JsonBody (chat_id text parse_mode : string)
| FormBody (chat_id fieldName streamPath filename : string)
           (caption : option string).

Record OutboundCall : Type := mkCall { url : string; payload : CallBody }.

(** [await fetch(...)] followed by [response.json()]: either the promise
    rejects with an error, or it yields the parsed reply, of which the code
    reads only the truthiness of [ok]. *)
Inductive FetchOutcome : Type :=
| Rejects (e : JsError)
| Resolves (ok : bool).

Inductive Node : Type := RegularFile | Directory.

(** The observable effects: a line on [console.error], a call of
    [fs.unlink] on a path (whether or not it then succeeds), a call of
    [fs.createReadStream], a request to the bot API, a response written. *)
Inductive Event : Type :=
| ConsoleError (msg : string)
| Unlink (p : string)
| CreateReadStream (p : string)
| Fetch (c : OutboundCall)
| Respond (r : Res.Response).

(** The file system maps absolute paths in resolved form to what is
    there, without symbolic links; the trace lists the observable effects
    in the order they happened. *)
Record World : Type := mkWorld { fs : gmap string Node; trace : list Event }.

(** The process environment: [__dirname], [process.cwd()], the two
    secrets of [process.env], and the bot API as an oracle. *)
Record Env : Type := mkEnv {
  dirname : string;
  cwd : string;
  TELEGRAM_BOT_TOKEN : option string;
  TELEGRAM_CHAT_ID : option string;
  telegram : OutboundCall -> FetchOutcome
}.

(** State and exceptions. [St] is [World], or a handler's frame holding
    its local variables next to the world. *)
Definition M (St A : Type) : Type := St -> Result A * St.

Definition ret {St A} (a : A) : M St A := fun s => (Ok a, s).

Definition bind {St A B} (m : M St A) (k : A -> M St B) : M St B :=
  fun s => match m s with
           | (Ok a, s') => k a s'
           | (Throw e, s') => (Throw e, s')
           end.

Definition throw {St A} (e : JsError) : M St A := fun s => (Throw e, s).

Definition lift {St A} (r : Result A) : M St A := fun s => (r, s).

(** [try { body } catch (error) { handler }] *)
Definition try_catch {St A} (body : M St A) (handler : JsError -> M St A)
  : M St A :=
  fun s => match body s with
           | (Ok a, s') => (Ok a, s')
           | (Throw e, s') => handler e s'
           end.

Definition emit (e : Event) : M World unit :=
  fun w => (Ok tt, {| fs := fs w; trace := trace w ++ [e] |}).

Definition console_error (msg : string) : M World unit :=
  emit (ConsoleError msg).

Definition respond (status : Z) (success : bool) (message : string)
  : M World unit :=
  emit (Respond (Res.mkResponse status success message)).

(** Whether a directory is at the place reached, [at_] holding its
    segments, last first. The root is one; so is what the map lists as a
    directory; and so is every ancestor of an entry of the map, which
    lists files and the directories made explicitly, not the directories
    on the way to them. *)
Definition isDirectory (disk : gmap string Node) (at_ : list string) : bool :=
  match at_ with
  | [] => true
  | _ =>
      let dir := "/" +:+ Path.joinSegs (rev at_) in
      match disk !! dir with
      | Some Directory => true
      | Some RegularFile => false
      | None =>
          existsb (λ entry, String.prefix (dir +:+ "/") (fst entry))
            (map_to_list disk)
      end
  end.

(** The walk the kernel makes along the components of a path it is
    handed as written: a name leads one level down; an empty component,
    ["."] and [".."] need a directory at the place reached, and [".."]
    then leads one level up. The walk fails where that directory is
    missing, which is where a path through a missing directory differs
    from its [path.resolve]. *)
Fixpoint walk (disk : gmap string Node) (at_ comps : list string)
  : option (list string) :=
  match comps with
  | [] => Some at_
  | c :: rest =>
      if String.eqb c "" || String.eqb c "." then
        if isDirectory disk at_ then walk disk at_ rest else None
      else if String.eqb c ".." then
        if isDirectory disk at_ then walk disk (tail at_) rest else None
      else walk disk (c :: at_) rest
  end.

(** What a file-system call finds at the path [p] it is given, relative
    paths starting at the working directory: the place the walk ends at,
    and what is there. The empty path names nothing. *)
Definition stat (env : Env) (disk : gmap string Node) (p : string)
  : option (string * Node) :=
  if String.eqb p "" then None
  else
    let raw := if Path.isAbsolute p then p else cwd env +:+ "/" +:+ p in
    match walk disk [] (Path.split raw) with
    | Some at_ =>
        let key := "/" +:+ Path.joinSegs (rev at_) in
        match disk !! key with
        | Some node => Some (key, node)
        | None => None
        end
    | None => None
    end.

(** [fs.existsSync(p)], on the path as the code passes it. *)
Definition existsSync (env : Env) (p : string) : M World bool :=
  fun w => (Ok (match stat env (fs w) p with
                | Some _ => true
                | None => false
                end), w).

(** [fs.unlink(p, (err) => { if (err) console.error(...) })], on the path
    as the code passes it. A regular file is removed; anything else makes
    the callback log the failure. The call is asynchronous: the world
    returned is the one in which the callback has run. No handler looks
    at the disk between its call of [removeFile] and its response, so a
    single request cannot tell the difference; two calls in a row can,
    and nothing below is stated about them. *)
Definition unlink (env : Env) (p : string) : M World unit :=
  fun w =>
    match stat env (fs w) p with
    | Some (key, RegularFile) =>
        (Ok tt, {| fs := delete key (fs w); trace := trace w ++ [Unlink p] |})
    | _ =>
        (Ok tt, {| fs := fs w;
                   trace := trace w ++ [Unlink p;
                                        ConsoleError "Error removing file:"] |})
    end.

(** [fetch(url, ...)] and [response.json()] against the oracle. *)
Definition fetch (env : Env) (c : OutboundCall) : M World bool :=
  fun w =>
    let w' := {| fs := fs w; trace := trace w ++ [Fetch c] |} in
    match telegram env c with
    | Rejects e => (Throw e, w')
    | Resolves ok => (Ok ok, w')
    end.

(** A template literal prints an unset environment variable as
    ["undefined"]. *)
Definition interpolate (v : option string) : string :=
  match v with Some s => s | None => "undefined" end.

(** [!v] for a [process.env] entry. *)
Definition env_truthy (v : option string) : bool :=
  match v with Some s => str_nonempty s | None => false end.

Definition responses (t : list Event) : list Res.Response :=
  omap (λ e, match e with Respond r => Some r | _ => None end) t.

Definition outbound (t : list Event) : list OutboundCall :=
  omap (λ e, match e with Fetch c => Some c | _ => None end) t.

Definition unlinked (t : list Event) : list string :=
  omap (λ e, match e with Unlink p => Some p | _ => None end) t.

Definition streamed (t : list Event) : list string :=
  omap (λ e, match e with CreateReadStream p => Some p | _ => None end) t.

End Effects.
Export Effects.

Notation "'let*' x ':=' m 'in' k" := (bind m (fun x => k))
  (at level 10, x name, m at level 100, k at level 200).
Notation "m ';;' k" := (bind m (fun _ => k))
  (at level 100, k at level 200, right associativity).

(** ** [server.js] *)

Module Req.
(** [req.body] of [POST /send-message], the object the JSON body parser
    leaves; an absent key is [JUndefined]. *)
Record MessageBody : Type :=
  mkMessageBody { name : JsValue; email : JsValue; message : JsValue }.
End Req.

Module Server.

(** [req.body] of [POST /send-file], as multer fills it from the text
    fields of the form. A repeated field or a bracketed field name makes
    the value an array or an object. *)
Record FileBody : Type :=
  mkFileBody { name : JsValue; email : JsValue; explanation : JsValue }.

(** The file part of a multipart request, before multer stored it. *)
Record IncomingFile : Type :=
  mkIncoming { in_originalname : string; in_mimetype : string; in_size : N }.

(** [req.file] *)
Record UploadedFile : Type :=
  mkUploaded { path : string; originalname : string; mimetype : string;
               size : N }.

(** A handler's frame: the world, and the local [let filePath = null] of
    the [/send-file] handler, which its [catch] block reads. *)
Record Frame : Type := mkFrame { world : World; filePath : option string }.

Definition liftW {A} (m : M World A) : M Frame A :=
  fun fr => let '(r, w') := m (world fr) in
            (r, {| world := w'; filePath := filePath fr |}).

Definition set_filePath (p : string) : M Frame unit :=
  fun fr => (Ok tt, {| world := world fr; filePath := Some p |}).

Definition get_filePath : M Frame (option string) :=
  fun fr => (Ok (filePath fr), fr).

(** [const uploadsDir = path.join(__dirname, 'uploads')] *)
Definition uploadsDir (env : Env) : string :=
  Path.join (dirname env) "uploads".

(** [limits.fileSize] *)
Definition fileSize : N := 20 * 1024 * 1024.

Definition allowedMimes : list string :=
  [ "image/jpeg"; "image/png"; "image/gif"; "image/webp"; "image/svg+xml";
    "application/pdf";
    "application/msword";
    "application/vnd.openxmlformats-officedocument.wordprocessingml.document";
    "application/vnd.ms-excel";
    "application/vnd.openxmlformats-officedocument.spreadsheetml.sheet";
    "application/vnd.ms-powerpoint";
    "application/vnd.openxmlformats-officedocument.presentationml.presentation";
    "text/plain";
    "application/zip";
    "application/x-rar-compressed";
    "video/mp4"; "video/mpeg"; "video/quicktime";
    "audio/mpeg"; "audio/wav"; "audio/ogg" ].

(** [arr.includes(x)] on an array of strings. *)
Definition arrayIncludes (arr : list string) (x : string) : bool :=
  existsb (String.eqb x) arr.

Definition typeNotSupported : JsError :=
  mkError KError
    "File type not supported. Please upload images, documents, or common media files.".

(** [fileFilter]: [cb(null, true)] is [Ok true], [cb(new Error(...))] is
    the error. *)
Definition fileFilter (mimetype : string) : Result bool :=
  if arrayIncludes allowedMimes mimetype then Ok true
  else Throw typeNotSupported.

(** [storage.filename]: [Date.now() + '-' + Math.round(Math.random() * 1E9)],
    then ['-'] and the original name. [now] and [rnd] are the two numbers. *)
Definition filename (now rnd : N) (originalname : string) : string :=
  let uniqueSuffix := Str.decimal now +:+ "-" +:+ Str.decimal rnd in
  uniqueSuffix +:+ "-" +:+ originalname.

(** [upload.single('file')], the multer middleware as configured at lines
    45-84, for a request carrying at most the one file part named [file].
    Multer asks [fileFilter] when the part starts, before any of its bytes
    are read; an accepted part is then streamed to
    [path.join(destination, filename)], and the stream aborts with
    [MulterError('LIMIT_FILE_SIZE')] once it has passed [limits.fileSize],
    leaving nothing on disk. An error goes to [next(err)]. A file of
    exactly [limits.fileSize] bytes is taken as within the limit. *)
Definition upload_single (env : Env) (now rnd : N) (part : option IncomingFile)
  : M World (option UploadedFile) :=
  match part with
  | None => ret None
  | Some f =>
      let* _ := lift (fileFilter (in_mimetype f)) in
      if (fileSize <? in_size f)%N then
        throw (mkError (KMulterError "LIMIT_FILE_SIZE") "File too large")
      else
        let dest := Path.join (uploadsDir env)
                      (filename now rnd (in_originalname f)) in
        fun w =>
          (Ok (Some (mkUploaded dest (in_originalname f) (in_mimetype f)
                       (in_size f))),
           {| fs := <[Path.resolve (cwd env) dest := RegularFile]> (fs w);
              trace := trace w |})
  end.

(** Lines 87-90. [!text] is the only guard; [.replace] exists on strings
    alone, so calling it on any other truthy value is a [TypeError]. *)
Definition sanitizeInput (text : JsValue) : Result string :=
  if negb (truthy text) then Ok EmptyString
  else match text with
       | JStr s =>
           Ok (Str.replaceAll ">" "&gt;" (Str.replaceAll "<" "&lt;" s))
       | _ => Throw (mkError KTypeError "text.replace is not a function")
       end.

(** Lines 93-108. *)
Definition sendTelegramTextMessage (env : Env) (chatId text : string)
  : M World bool :=
  let BOT_TOKEN := TELEGRAM_BOT_TOKEN env in
  let url := "https://api.telegram.org/bot" +:+ interpolate BOT_TOKEN
             +:+ "/sendMessage" in
  fetch env (mkCall url (JsonBody chatId text "HTML")).

(** The containment test that lines 117-126 and lines 154-163 both spell
    out, on [file.path] and on [filePath]. *)
Definition insideUploads (env : Env) (candidate : string) : bool :=
  let resolvedPath := Path.resolve (cwd env) candidate in
  let resolvedUploadsPath := Path.resolve (cwd env) (uploadsDir env) in
  let normalizedResolvedPath := resolvedPath +:+ Path.sep in
  let normalizedUploadsPath :=
    if Str.endsWith resolvedUploadsPath Path.sep
    then resolvedUploadsPath
    else resolvedUploadsPath +:+ Path.sep in
  Str.startsWith normalizedResolvedPath normalizedUploadsPath.

Definition invalidFilePath : JsError := mkError KError "Invalid file path".

(** Lines 111-149. *)
Definition sendTelegramFile (env : Env) (chatId : string) (file : UploadedFile)
    (caption : string) (isImage : bool) : M World bool :=
  let BOT_TOKEN := TELEGRAM_BOT_TOKEN env in
  let endpoint := if isImage then "sendPhoto" else "sendDocument" in
  let url := "https://api.telegram.org/bot" +:+ interpolate BOT_TOKEN
             +:+ "/" +:+ endpoint in
  if negb (insideUploads env (path file)) then throw invalidFilePath
  else
    let fieldName := if isImage then "photo" else "document" in
    emit (CreateReadStream (path file)) ;;
    let form :=
      FormBody chatId fieldName (path file) (originalname file)
        (if str_nonempty caption then Some caption else None) in
    fetch env (mkCall url form).

(** Lines 152-173. *)
Definition removeFile (env : Env) (filePath : string) : M World unit :=
  if negb (insideUploads env filePath) then
    console_error "Attempted to remove file outside uploads directory:"
  else
    let* there := existsSync env filePath in
    if there then unlink env filePath else ret tt.

Definition configError : string :=
  "Server configuration error. Please contact administrator.".

(** Lines 176-228. *)
Definition send_message (env : Env) (body : Req.MessageBody) : M World unit :=
  try_catch
    (let name := Req.name body in
     let email := Req.email body in
     let message := Req.message body in
     if negb (truthy name) || negb (truthy email) || negb (truthy message) then
       respond 400 false "Name, email, and message are required."
     else
       let BOT_TOKEN := TELEGRAM_BOT_TOKEN env in
       let CHAT_ID := TELEGRAM_CHAT_ID env in
       if negb (env_truthy BOT_TOKEN) || negb (env_truthy CHAT_ID) then
         console_error "Missing Telegram credentials" ;;
         respond 500 false configError
       else
         let* sanitizedName := lift (sanitizeInput name) in
         let* sanitizedEmail := lift (sanitizeInput email) in
         let* sanitizedMessage := lift (sanitizeInput message) in
         let text :=
           "<b>New Contact Form Message</b>" +:+ Str.nl +:+ Str.nl +:+
           "<b>Name:</b> " +:+ sanitizedName +:+ Str.nl +:+
           "<b>Email:</b> " +:+ sanitizedEmail +:+ Str.nl +:+
           "<b>Message:</b>" +:+ Str.nl +:+ sanitizedMessage in
         let* ok := sendTelegramTextMessage env (interpolate CHAT_ID) text in
         if ok then respond 200 true "Message sent successfully!"
         else
           console_error "Telegram API error:" ;;
           respond 500 false "Failed to send message. Please try again.")
    (fun error =>
       console_error "Error in /send-message:" ;;
       respond 500 false "An error occurred while sending your message.").

(** [if (file) removeFile(file.path)] *)
Definition removeIfFile (env : Env) (file : option UploadedFile)
  : M World unit :=
  match file with
  | Some f => removeFile env (path f)
  | None => ret tt
  end.

Definition fileSizeMessage : string := "File size exceeds 20 MB limit.".

(** Lines 234-319: the [try] block of [POST /send-file]. *)
Definition send_file_try (env : Env) (body : FileBody)
    (file : option UploadedFile) : M Frame unit :=
  let name := name body in
  let email := email body in
  let explanation := explanation body in
  if negb (truthy name) || negb (truthy email) then
    liftW (removeIfFile env file) ;;
    liftW (respond 400 false "Name and email are required.")
  else
    let BOT_TOKEN := TELEGRAM_BOT_TOKEN env in
    let CHAT_ID := TELEGRAM_CHAT_ID env in
    if negb (env_truthy BOT_TOKEN) || negb (env_truthy CHAT_ID) then
      liftW (removeIfFile env file) ;;
      liftW (console_error "Missing Telegram credentials") ;;
      liftW (respond 500 false configError)
    else
      let* sanitizedName := lift (sanitizeInput name) in
      let* sanitizedEmail := lift (sanitizeInput email) in
      let* sanitizedExplanation := lift (sanitizeInput explanation) in
      match file with
      | Some file =>
          set_filePath (path file) ;;
          let caption0 :=
            "<b>New File Upload</b>" +:+ Str.nl +:+ Str.nl +:+
            "<b>Name:</b> " +:+ sanitizedName +:+ Str.nl +:+
            "<b>Email:</b> " +:+ sanitizedEmail in
          let caption :=
            if str_nonempty sanitizedExplanation
            then caption0 +:+ Str.nl +:+ "<b>Explanation:</b>" +:+ Str.nl
                 +:+ sanitizedExplanation
            else caption0 in
          let isImage := Str.startsWith (mimetype file) "image/" in
          let* ok := liftW (sendTelegramFile env (interpolate CHAT_ID) file
                              caption isImage) in
          let* fp := get_filePath in
          match fp with
          | Some p => liftW (removeFile env p)
          | None =>
              throw (mkError KTypeError
                       "The path argument must be of type string")
          end ;;
          if ok then
            liftW (respond 200 true "File and information sent successfully!")
          else
            liftW (console_error "Telegram API error:") ;;
            liftW (respond 500 false "Failed to send file. Please try again.")
      | None =>
          let text0 :=
            "<b>New Contact Submission (No File)</b>" +:+ Str.nl +:+ Str.nl +:+
            "<b>Name:</b> " +:+ sanitizedName +:+ Str.nl +:+
            "<b>Email:</b> " +:+ sanitizedEmail in
          let text :=
            if str_nonempty sanitizedExplanation
            then text0 +:+ Str.nl +:+ "<b>Message:</b>" +:+ Str.nl
                 +:+ sanitizedExplanation
            else text0 in
          let* ok := liftW (sendTelegramTextMessage env (interpolate CHAT_ID)
                              text) in
          if ok then liftW (respond 200 true "Message sent successfully!")
          else
            liftW (console_error "Telegram API error:") ;;
            liftW (respond 500 false "Failed to send message. Please try again.")
      end.

(** Line 321: [if (filePath) removeFile(filePath)], on the frame's
    [filePath]. *)
Definition removeIfFilePath (env : Env) : M Frame unit :=
  let* fp := get_filePath in
  match fp with
  | Some p => if str_nonempty p then liftW (removeFile env p) else ret tt
  | None => ret tt
  end.

(** Lines 320-343: the [catch] block of [POST /send-file]. *)
Definition send_file_catch (env : Env) (error : JsError) : M Frame unit :=
  removeIfFilePath env ;;
  liftW (console_error "Error in /send-file:") ;;
  if is_multer error then
    if has_code error "LIMIT_FILE_SIZE" then
      liftW (respond 400 false fileSizeMessage)
    else
      liftW (respond 400 false ("File upload error: " +:+ Js.message error))
  else
    liftW (respond 500 false
             (if str_nonempty (Js.message error) then Js.message error
              else "An error occurred while processing your request.")).

(** Lines 231-344: the handler of [POST /send-file], started with
    [filePath = null]. *)
Definition send_file (env : Env) (body : FileBody)
    (file : option UploadedFile) : M World unit :=
  fun w =>
    let '(r, fr) :=
      try_catch (send_file_try env body file) (send_file_catch env)
        {| world := w; filePath := None |} in
    (r, world fr).

(** Lines 347-374: the error-handling middleware. *)
Definition errorHandler (err : JsError) : M World unit :=
  console_error "Global error handler:" ;;
  if is_multer err then
    if has_code err "LIMIT_FILE_SIZE" then respond 400 false fileSizeMessage
    else respond 400 false ("File upload error: " +:+ Js.message err)
  else if str_nonempty (Js.message err)
          && Str.includes (Js.message err) "File type not supported" then
    respond 400 false (Js.message err)
  else respond 500 false "An unexpected error occurred.".

(** The route [app.post('/send-file', upload.single('file'), handler)]
    under Express: the handler runs when the middleware calls [next()], the
    error-handling middleware when it calls [next(err)]. *)
Definition post_send_file (env : Env) (now rnd : N) (body : FileBody)
    (part : option IncomingFile) : M World unit :=
  fun w =>
    match upload_single env now rnd part w with
    | (Ok file, w') => send_file env body file w'
    | (Throw err, w') => errorHandler err w'
    end.

End Server.

(** ** The second deployment (body-parser and CORS only, no uploads) *)

Module Legacy.

(** Lines 19-27: the process exits at start-up unless both secrets are
    set; a running handler therefore sees them set. *)
Definition started (env : Env) : bool :=
  env_truthy (TELEGRAM_BOT_TOKEN env) && env_truthy (TELEGRAM_CHAT_ID env).

(** Lines 30-36. *)
Definition sanitizeInput (text : JsValue) : string :=
  match text with
  | JStr s => Str.replaceAll ">" "&gt;" (Str.replaceAll "<" "&lt;" s)
  | _ => EmptyString
  end.

(** Lines 38-82. The four pictographs of the message are written as their
    UTF-8 bytes, and so are the no-break spaces (U+00A0) of the source's
    indentation, four of which, each followed by a space, end the
    template literal after its last line break. *)
Definition send_message (env : Env) (body : Req.MessageBody) : M World unit :=
  try_catch
    (let name := Req.name body in
     let email := Req.email body in
     let message := Req.message body in
     let sanitizedName := sanitizeInput name in
     let sanitizedEmail := sanitizeInput email in
     let sanitizedMessage := sanitizeInput message in
     let telegramMessage :=
       Str.nl +:+
       "📩 <b>New Contact Form Submission</b>" +:+ Str.nl +:+
       "👤 <b>Name:</b> " +:+ sanitizedName +:+ Str.nl +:+
       "📧 <b>Email:</b> " +:+ sanitizedEmail +:+ Str.nl +:+
       "💬 <b>Message:</b>" +:+ Str.nl +:+
       sanitizedMessage +:+ Str.nl +:+ "        " in
     let* ok :=
       fetch env
         (mkCall ("https://api.telegram.org/bot"
                  +:+ interpolate (TELEGRAM_BOT_TOKEN env) +:+ "/sendMessage")
            (JsonBody (interpolate (TELEGRAM_CHAT_ID env)) telegramMessage
               "HTML")) in
     if ok then respond 200 true "Message sent successfully!"
     else
       console_error "Telegram API Error:" ;;
       respond 500 false "Failed to send message.")
    (fun error =>
       console_error "Error in /send-message route:" ;;
       respond 500 false "An error occurred.").

End Legacy.

(** ** Vocabulary of the specification *)

Module Spec.

(** Section 4.1: every ['<'] becomes [&lt;], every ['>'] becomes [&gt;],
    every other character stays as it is. *)
Definition escapeChar (c : ascii) : string :=
  if Ascii.eqb c "<" then "&lt;"
  else if Ascii.eqb c ">" then "&gt;"
  else String c EmptyString.

Fixpoint escape (s : string) : string :=
  match s with
  | EmptyString => EmptyString
  | String c s' => escapeChar c +:+ escape s'
  end.

(** Section 4.3: a path lies within the temp directory when the components
    of its resolved form start with those of the resolved directory: the
    directory itself, or anything below it. *)
Definition within (env : Env) (candidate : string) : Prop :=
  Path.components (Path.resolve (cwd env) (Server.uploadsDir env))
    `prefix_of` Path.components (Path.resolve (cwd env) candidate).

(** Section 6, "Allowed upload MIME types", in the order given there. *)
Definition allowed_types : list string :=
  [ "image/jpeg"; "image/png"; "image/gif"; "image/webp"; "image/svg+xml";
    "application/pdf"; "application/msword";
    "application/vnd.openxmlformats-officedocument.wordprocessingml.document";
    "application/vnd.ms-excel";
    "application/vnd.openxmlformats-officedocument.spreadsheetml.sheet";
    "application/vnd.ms-powerpoint";
    "application/vnd.openxmlformats-officedocument.presentationml.presentation";
    "text/plain"; "application/zip"; "application/x-rar-compressed";
    "video/mp4"; "video/mpeg"; "video/quicktime";
    "audio/mpeg"; "audio/wav"; "audio/ogg" ].

(** Section 6, "Max upload size: 20 MiB", in bytes. *)
Definition max_upload_size : N := 20 * 1024 * 1024.

(** Both secrets are set. *)
Definition configured (env : Env) : Prop :=
  env_truthy (TELEGRAM_BOT_TOKEN env) = true /\
  env_truthy (TELEGRAM_CHAT_ID env) = true.

(** A field that is a non-empty string. *)
Definition filled (v : JsValue) : Prop :=
  exists s, v = JStr s /\ s <> EmptyString.

(** Section 3, [Submission]: the three fields are non-empty strings. *)
Definition valid_submission (body : Req.MessageBody) : Prop :=
  filled (Req.name body) /\ filled (Req.email body) /\
  filled (Req.message body).

(** A field counts as missing when the handler's test [!field] holds: the
    key is absent, or its value is [null], [false], [0] or [""]. *)
Definition some_field_missing (body : Req.MessageBody) : Prop :=
  truthy (Req.name body) = false \/ truthy (Req.email body) = false \/
  truthy (Req.message body) = false.

(** Section 4.6, the four classes of a caught error. *)
Inductive ErrorClass : Type :=
| SizeViolation
| OtherUploadError
| DisallowedType
| OtherError.

Definition classify (err : JsError) : ErrorClass :=
  match kind err with
  | KMulterError code =>
      if String.eqb code "LIMIT_FILE_SIZE" then SizeViolation
      else OtherUploadError
  | _ =>
      if Str.includes (Js.message err) "File type not supported"
      then DisallowedType else OtherError
  end.

(** Section 4.6, the response of each class. *)
Definition mapped_response (err : JsError) : Res.Response :=
  match classify err with
  | SizeViolation => Res.mkResponse 400 false "File size exceeds 20 MB limit."
  | OtherUploadError =>
      Res.mkResponse 400 false ("File upload error: " +:+ Js.message err)
  | DisallowedType => Res.mkResponse 400 false (Js.message err)
  | OtherError => Res.mkResponse 500 false "An unexpected error occurred."
  end.

(** What the [catch] block of [/send-file] answers. *)
Definition caught_response (err : JsError) : Res.Response :=
  match kind err with
  | KMulterError _ => mapped_response err
  | _ =>
      Res.mkResponse 500 false
        (if str_nonempty (Js.message err) then Js.message err
         else "An error occurred while processing your request.")
  end.

(** Section 8: a handler answers a request with a missing field by one
    400 failure and calls the bot API not at all. *)
Definition rejects_missing_fields
    (handler : Env -> Req.MessageBody -> M World unit) : Prop :=
  forall env body w,
    some_field_missing body ->
    (exists msg,
       responses (trace (snd (handler env body w)))
       = responses (trace w) ++ [Res.mkResponse 400 false msg]) /\
    outbound (trace (snd (handler env body w))) = outbound (trace w).

(** The status codes and success flags a handler answered with. *)
Definition verdicts (t : list Event) : list (Z * bool) :=
  map (λ r, (Res.status r, Res.success r)) (responses t).

(** Section 9: the two deployments behave alike. Their sanitizers give
    the same result on every value, and their handlers give the same
    verdict and make as many calls on every request. *)
Definition sanitizers_equivalent : Prop :=
  forall v, Server.sanitizeInput v = Ok (Legacy.sanitizeInput v).

Definition handlers_equivalent : Prop :=
  forall env body w,
    configured env ->
    verdicts (trace (snd (Server.send_message env body w)))
    = verdicts (trace (snd (Legacy.send_message env body w))) /\
    length (outbound (trace (snd (Server.send_message env body w))))
    = length (outbound (trace (snd (Legacy.send_message env body w)))).

Definition deployments_equivalent : Prop :=
  sanitizers_equivalent /\ handlers_equivalent.

End Spec.

(** ** What a run of the text-only endpoint looks like *)

Definition sendMessage_url (env : Env) : string :=
  "https://api.telegram.org/bot" +:+ interpolate (TELEGRAM_BOT_TOKEN env)
  +:+ "/sendMessage".

Definition server_text (n e m : string) : string :=
  "<b>New Contact Form Message</b>" +:+ Str.nl +:+ Str.nl +:+
  "<b>Name:</b> " +:+ Spec.escape n +:+ Str.nl +:+
  "<b>Email:</b> " +:+ Spec.escape e +:+ Str.nl +:+
  "<b>Message:</b>" +:+ Str.nl +:+ Spec.escape m.

Definition server_call (env : Env) (n e m : string) : OutboundCall :=
  mkCall (sendMessage_url env)
    (JsonBody (interpolate (TELEGRAM_CHAT_ID env)) (server_text n e m) "HTML").

(** What [server.js] does once the reply of the bot API is known. *)
Definition server_after (reply : FetchOutcome) : list Event :=
  match reply with
  | Resolves true =>
      [Respond (Res.mkResponse 200 true "Message sent successfully!")]
  | Resolves false =>
      [ConsoleError "Telegram API error:";
       Respond (Res.mkResponse 500 false
                  "Failed to send message. Please try again.")]
  | Rejects _ =>
      [ConsoleError "Error in /send-message:";
       Respond (Res.mkResponse 500 false
                  "An error occurred while sending your message.")]
  end.

Definition legacy_text (n e m : string) : string :=
  Str.nl +:+
  "📩 <b>New Contact Form Submission</b>" +:+ Str.nl +:+
  "👤 <b>Name:</b> " +:+ n +:+ Str.nl +:+
  "📧 <b>Email:</b> " +:+ e +:+ Str.nl +:+
  "💬 <b>Message:</b>" +:+ Str.nl +:+
  m +:+ Str.nl +:+ "        ".

Definition legacy_call (env : Env) (body : Req.MessageBody) : OutboundCall :=
  mkCall (sendMessage_url env)
    (JsonBody (interpolate (TELEGRAM_CHAT_ID env))
       (legacy_text (Legacy.sanitizeInput (Req.name body))
          (Legacy.sanitizeInput (Req.email body))
          (Legacy.sanitizeInput (Req.message body))) "HTML").

Definition legacy_after (reply : FetchOutcome) : list Event :=
  match reply with
  | Resolves true =>
      [Respond (Res.mkResponse 200 true "Message sent successfully!")]
  | Resolves false =>
      [ConsoleError "Telegram API Error:";
       Respond (Res.mkResponse 500 false "Failed to send message.")]
  | Rejects _ =>
      [ConsoleError "Error in /send-message route:";
       Respond (Res.mkResponse 500 false "An error occurred.")]
  end.

(** ** Predicates on paths and fields used in the proofs *)

Definition slashfree (s : string) : Prop := Str.occurs Path.slash s = false.

(** A segment of a normalised path: not empty, no separator inside. *)
Definition segment (s : string) : Prop := s <> EmptyString /\ slashfree s.

(** The segments, each followed by a separator. *)
Definition enc (l : list string) : string :=
  foldr (λ s acc, s +:+ "/" +:+ acc) EmptyString l.

(** A field [sanitizeInput] can take: a string, or a falsy value. *)
Definition sanitizable (v : JsValue) : Prop :=
  is_string v = true \/ truthy v = false.

(** ** Sample data for the concrete instances *)

Definition sample_env : Env :=
  mkEnv "/srv/app" "/srv/app" (Some "123:abc") (Some "42")
    (fun _ => Resolves true).

Definition failing_env : Env :=
  mkEnv "/srv/app" "/srv/app" (Some "123:abc") (Some "42")
    (fun _ => Resolves false).

Definition empty_world : World := mkWorld ∅ [].

Definition uploads_only : World :=
  mkWorld {[ "/srv/app/uploads" := Directory ]} [].



Definition sample_body : Req.MessageBody :=
  Req.mkMessageBody (JStr "Ada") (JStr "ada@example.org") (JStr "<hello>").

Definition nameless_body : Req.MessageBody :=
  Req.mkMessageBody JUndefined (JStr "ada@example.org") (JStr "hello").

Definition outside_file : Server.UploadedFile :=
  Server.mkUploaded "/srv/app/uploads/../.env" ".env" "text/plain" 120.

Definition root_file : Server.UploadedFile :=
  Server.mkUploaded "/srv/app/uploads/" "uploads" "text/plain" 0.

Definition exe_part : Server.IncomingFile :=
  Server.mkIncoming "setup.exe" "application/x-msdownload" 4096.

Definition huge_exe_part : Server.IncomingFile :=
  Server.mkIncoming "setup.exe" "application/x-msdownload" 20971521.

Definition huge_video_part : Server.IncomingFile :=
  Server.mkIncoming "talk.mp4" "video/mp4" 20971521.

Definition cv_part : Server.IncomingFile :=
  Server.mkIncoming "cv.pdf" "application/pdf" 52000.

Definition plain_body : Server.FileBody :=
  Server.mkFileBody (JStr "Ada") (JStr "ada@example.org") (JStr "my cv").

(** The field [name] sent twice: multer collects the values in an array. *)
Definition array_name_body : Server.FileBody :=
  Server.mkFileBody (JArr [JStr "Ada"; JStr "Lovelace"])
    (JStr "ada@example.org") JUndefined.

(** Closes a decidable goal about concrete data by evaluating its
    decision procedure. *)
Ltac by_evaluation := apply (bool_decide_unpack _); by vm_compute.

(** ** The access filter of [server.js] *)

Module Access.

(** Lines 18-21. *)
Definition blockedFiles : list string :=
  [ "/server.js"; "/package.json"; "/package-lock.json";
    "/.env"; "/.env.example"; "/.gitignore" ].

(** What a middleware does with a request: it answers with
    [res.status(s).send(text)], or it calls [next()]. *)
Inductive Decision : Type :=
| Answer (status : Z) (text : string)
| Next.

(** Lines 17-27, on [req.path], the path of the request URL as the client
    wrote it. *)
Definition blockSensitive (reqPath : string) : Decision :=
  if Server.arrayIncludes blockedFiles reqPath
  then Answer 403 "Access denied"
  else Next.

End Access.

(** ** Measures and expected runs used by the further properties *)

(** How often [c] occurs in [s]. *)
Fixpoint count_char (c : ascii) (s : string) : nat :=
  match s with
  | EmptyString => 0%nat
  | String a s' => ((if Ascii.eqb a c then 1 else 0) + count_char c s')%nat
  end.

(** The text or caption a call carries. *)
Definition call_text (c : OutboundCall) : string :=
  match payload c with
  | JsonBody _ text _ => text
  | FormBody _ _ _ _ (Some caption) => caption
  | FormBody _ _ _ _ None => EmptyString
  end.

(** The string of a field that is one. *)
Definition field_text (v : JsValue) : string :=
  match v with JStr s => s | _ => EmptyString end.

(** All that [POST /send-message] of [server.js] does, by the four ways
    the request can go: a field is missing; a secret is missing; a field is
    not a string; the message is relayed. *)
Definition send_message_events (env : Env) (body : Req.MessageBody)
  : list Event :=
  if negb (truthy (Req.name body)) || negb (truthy (Req.email body))
     || negb (truthy (Req.message body)) then
    [Respond (Res.mkResponse 400 false
                "Name, email, and message are required.")]
  else if negb (env_truthy (TELEGRAM_BOT_TOKEN env))
          || negb (env_truthy (TELEGRAM_CHAT_ID env)) then
    [ConsoleError "Missing Telegram credentials";
     Respond (Res.mkResponse 500 false Server.configError)]
  else if is_string (Req.name body) && is_string (Req.email body)
          && is_string (Req.message body) then
    let c := server_call env (field_text (Req.name body))
               (field_text (Req.email body))
               (field_text (Req.message body)) in
    Fetch c :: server_after (telegram env c)
  else
    [ConsoleError "Error in /send-message:";
     Respond (Res.mkResponse 500 false
                "An error occurred while sending your message.")].

(** The responses [POST /send-message] of [server.js] can give. *)
Definition send_message_replies : list Res.Response :=
  [ Res.mkResponse 400 false "Name, email, and message are required.";
    Res.mkResponse 500 false Server.configError;
    Res.mkResponse 200 true "Message sent successfully!";
    Res.mkResponse 500 false "Failed to send message. Please try again.";
    Res.mkResponse 500 false "An error occurred while sending your message." ].

(** The one kind of call a [/send-file] request can lead to: with a file,
    [sendPhoto] for an [image/...] type and [sendDocument] otherwise, the
    file streamed from its stored path under its original name, with a
    caption; without a file, [sendMessage]. In both the text carries only
    the markup of the template: the brackets of three or of four bold
    labels. *)
Definition expected_call (env : Env) (file : option Server.UploadedFile)
    (c : OutboundCall) : Prop :=
  (match file with
   | Some f =>
       exists caption,
         c = mkCall ("https://api.telegram.org/bot"
                     +:+ interpolate (TELEGRAM_BOT_TOKEN env) +:+ "/"
                     +:+ (if Str.startsWith (Server.mimetype f) "image/"
                          then "sendPhoto" else "sendDocument"))
               (FormBody (interpolate (TELEGRAM_CHAT_ID env))
                  (if Str.startsWith (Server.mimetype f) "image/"
                   then "photo" else "document")
                  (Server.path f) (Server.originalname f) (Some caption))
   | None =>
       exists text,
         c = mkCall ("https://api.telegram.org/bot"
                     +:+ interpolate (TELEGRAM_BOT_TOKEN env)
                     +:+ "/sendMessage")
               (JsonBody (interpolate (TELEGRAM_CHAT_ID env)) text "HTML")
   end) /\
  count_char "<" (call_text c) = count_char ">" (call_text c) /\
  (count_char "<" (call_text c) = 6%nat \/
   count_char "<" (call_text c) = 8%nat).

(** A segment that normalisation keeps as it is. *)
Definition proper (s : string) : Prop :=
  segment s /\ s <> "." /\ s <> "..".

(** Symbolic execution of the [/send-file] handler: unfold the code, then
    split on the next test the code makes. *)
Ltac run_code :=
  cbv beta iota zeta delta
    [Server.send_file Server.send_file_try Server.send_file_catch
     Server.removeIfFile Server.removeIfFilePath Server.removeFile
     Server.sendTelegramFile Server.sendTelegramTextMessage
     Server.liftW Server.set_filePath Server.get_filePath
     try_catch bind lift ret throw emit respond console_error
     existsSync unlink fetch negb orb andb];
  cbn [fst snd fs trace Server.world Server.filePath].

Ltac run_step :=
  match goal with
  | H : ?x = _ |- context [match ?x with _ => _ end] => rewrite H
  | |- context [truthy ?v] => destruct (truthy v) eqn:?
  | |- context [env_truthy ?v] => destruct (env_truthy v) eqn:?
  | |- context [match ?f with Some _ => _ | None => _ end] =>
      is_var f; destruct f
  | |- context [Server.sanitizeInput ?v] =>
      destruct (Server.sanitizeInput v) eqn:?
  | |- context [Server.insideUploads ?e ?p] =>
      destruct (Server.insideUploads e p) eqn:?
  | |- context [telegram ?e ?c] => destruct (telegram e c) as [?|[|]] eqn:?
  | |- context [stat ?e ?d ?p] => destruct (stat e d p) as [[? [|]]|] eqn:?
  | |- context [is_multer ?e] => destruct (is_multer e) eqn:?
  | |- context [has_code ?e ?c] => destruct (has_code e c) eqn:?
  | |- context [if str_nonempty ?s then _ else _] =>
      destruct (str_nonempty s) eqn:?
  end; run_code.

(** ** Strings *)

Section StringFacts.

Lemma append_cons (a : ascii) (s t : string) :
  String a s +:+ t = String a (s +:+ t).
Proof. reflexivity. Qed.

Lemma append_empty_l (s : string) : EmptyString +:+ s = s.
Proof. reflexivity. Qed.

Lemma append_empty_r (s : string) : s +:+ EmptyString = s.
Proof. induction s as [|a s IH]; [done|]. by rewrite append_cons, IH. Qed.

Lemma append_assoc (s t u : string) : (s +:+ t) +:+ u = s +:+ (t +:+ u).
Proof.
  induction s as [|a s IH]; [done|]. by rewrite !append_cons, IH.
Qed.

Lemma str_nonempty_true (s : string) :
  str_nonempty s = true <-> s <> EmptyString.
Proof. destruct s; simpl; split; intros; congruence. Qed.

Lemma occurs_app (c : ascii) (s t : string) :
  Str.occurs c (s +:+ t) = Str.occurs c s || Str.occurs c t.
Proof.
  induction s as [|a s IH]; [done|].
  rewrite append_cons. simpl. rewrite IH. by rewrite orb_assoc.
Qed.

Lemma replaceAll_app (c : ascii) (rep s t : string) :
  Str.replaceAll c rep (s +:+ t)
  = Str.replaceAll c rep s +:+ Str.replaceAll c rep t.
Proof.
  induction s as [|a s IH]; [done|].
  rewrite append_cons. simpl. destruct (Ascii.eqb a c).
  - by rewrite IH, append_assoc.
  - by rewrite IH.
Qed.

(** The two passes of [sanitizeInput] amount to one pass that escapes each
    character on its own: the text the first pass inserts holds no ['>']. *)
Lemma two_passes_escape (s : string) :
  Str.replaceAll ">" "&gt;" (Str.replaceAll "<" "&lt;" s) = Spec.escape s.
Proof.
  induction s as [|a s IH]; [done|].
  simpl. unfold Spec.escapeChar.
  destruct (Ascii.eqb a "<") eqn:Hlt.
  - rewrite replaceAll_app, IH. done.
  - simpl. destruct (Ascii.eqb a ">"); by rewrite IH.
Qed.

Lemma escapeChar_clean (a : ascii) :
  Str.occurs "<" (Spec.escapeChar a) = false /\
  Str.occurs ">" (Spec.escapeChar a) = false.
Proof.
  unfold Spec.escapeChar.
  destruct (Ascii.eqb a "<") eqn:Hlt; [done|].
  destruct (Ascii.eqb a ">") eqn:Hgt; [done|].
  simpl. by rewrite Hlt, Hgt.
Qed.

Lemma escape_clean (s : string) :
  Str.occurs "<" (Spec.escape s) = false /\
  Str.occurs ">" (Spec.escape s) = false.
Proof.
  induction s as [|a s [IH1 IH2]]; [done|].
  simpl. rewrite !occurs_app, IH1, IH2.
  by destruct (escapeChar_clean a) as [-> ->].
Qed.

(** Characters other than the two brackets are not altered. *)
Lemma escape_fixes_plain (s : string) :
  Str.occurs "<" s = false -> Str.occurs ">" s = false -> Spec.escape s = s.
Proof.
  induction s as [|a s IH]; [done|]. simpl.
  intros [Ha Hs]%orb_false_elim [Hb Hs']%orb_false_elim.
  unfold Spec.escapeChar. rewrite Ha, Hb, append_cons, append_empty_l.
  by rewrite IH.
Qed.

End StringFacts.

(** ** The input sanitizer *)

Section Sanitizer.

Lemma server_sanitize_string (s : string) :
  Server.sanitizeInput (JStr s) = Ok (Spec.escape s).
Proof.
  unfold Server.sanitizeInput. destruct s as [|a s]; [done|].
  cbn [truthy str_nonempty negb]. by rewrite two_passes_escape.
Qed.

Lemma server_sanitize_falsy (v : JsValue) :
  truthy v = false -> Server.sanitizeInput v = Ok EmptyString.
Proof. intros H. unfold Server.sanitizeInput. by rewrite H. Qed.

(** The case the guard [!text] lets through: a truthy value that is not a
    string has no [replace] method. *)
Lemma server_sanitize_throws (v : JsValue) :
  truthy v = true -> is_string v = false ->
  Server.sanitizeInput v
  = Throw (mkError KTypeError "text.replace is not a function").
Proof.
  intros Ht Hs. unfold Server.sanitizeInput. rewrite Ht.
  by destruct v.
Qed.

Lemma legacy_sanitize_string (s : string) :
  Legacy.sanitizeInput (JStr s) = Spec.escape s.
Proof. apply two_passes_escape. Qed.

Lemma legacy_sanitize_non_string (v : JsValue) :
  is_string v = false -> Legacy.sanitizeInput v = EmptyString.
Proof. by destruct v. Qed.

(** The two sanitizers agree on every string and on every falsy value. *)
Lemma sanitizers_agree (v : JsValue) :
  is_string v = true \/ truthy v = false ->
  Server.sanitizeInput v = Ok (Legacy.sanitizeInput v).
Proof.
  intros [Hs | Hf].
  - destruct v; try discriminate.
    by rewrite server_sanitize_string, legacy_sanitize_string.
  - rewrite server_sanitize_falsy by done.
    destruct v; try done. by destruct s.
Qed.

(** C3 (the part of it that fails on [server.js]): the sanitizer of
    [server.js] is not total. Given the number 42, a truthy value that is
    not a string, it throws a [TypeError] where the specification, and the
    sanitizer of the second deployment, give the empty string. *)
Theorem server_sanitize_number_throws :
  Server.sanitizeInput (JNum 42)
  = Throw (mkError KTypeError "text.replace is not a function") /\
  Legacy.sanitizeInput (JNum 42) = EmptyString.
Proof. split; reflexivity. Qed.

(** On strings both sanitizers do what section 4.1 says: the result is the
    character-wise escape of the input, holds no raw bracket, and a text
    without brackets comes back unchanged. *)
Lemma sanitize_strings (s : string) :
  Server.sanitizeInput (JStr s) = Ok (Spec.escape s) /\
  Legacy.sanitizeInput (JStr s) = Spec.escape s /\
  Str.occurs "<" (Spec.escape s) = false /\
  Str.occurs ">" (Spec.escape s) = false.
Proof.
  pose proof (escape_clean s) as [H1 H2].
  by rewrite server_sanitize_string, legacy_sanitize_string.
Qed.

End Sanitizer.

(** ** The upload filter and the error mapper *)

Section Uploads.

Lemma arrayIncludes_elem (arr : list string) (x : string) :
  Server.arrayIncludes arr x = true <-> x ∈ arr.
Proof.
  unfold Server.arrayIncludes. rewrite existsb_exists, list_elem_of_In.
  split.
  - intros (y & Hy & ->%String.eqb_eq). done.
  - intros H. exists x. by rewrite String.eqb_refl.
Qed.

Lemma fileFilter_accepts (m : string) :
  Server.fileFilter m = Ok true <-> m ∈ Server.allowedMimes.
Proof.
  rewrite <- arrayIncludes_elem. unfold Server.fileFilter.
  destruct (Server.arrayIncludes _ _); split; intros; congruence.
Qed.

Lemma fileFilter_rejects (m : string) :
  m ∉ Server.allowedMimes ->
  Server.fileFilter m = Throw Server.typeNotSupported.
Proof.
  rewrite <- arrayIncludes_elem. unfold Server.fileFilter.
  destruct (Server.arrayIncludes _ _); [intros []; done | done].
Qed.

(** The test [err.message && ...] adds nothing to [includes] for a
    pattern that is not empty. *)
Lemma guarded_includes (msg pat : string) :
  pat <> EmptyString ->
  str_nonempty msg && Str.includes msg pat = Str.includes msg pat.
Proof.
  intros Hp. destruct msg as [|a msg]; [|done].
  destruct pat; [done|]. reflexivity.
Qed.

(** The error mapper never throws, touches no file, calls nobody and
    writes one response: the one section 4.6 gives for the error's class. *)
Lemma errorHandler_maps (err : JsError) (w : World) :
  Server.errorHandler err w
  = (Ok tt,
     {| fs := fs w;
        trace := trace w ++ [ConsoleError "Global error handler:";
                             Respond (Spec.mapped_response err)] |}).
Proof.
  unfold Server.errorHandler, Spec.mapped_response, Spec.classify,
    is_multer, has_code, console_error, respond, emit, bind.
  destruct err as [k msg]. cbn [kind Js.message fs trace].
  destruct k as [| |code].
  - rewrite guarded_includes by done.
    destruct (Str.includes msg _); cbn; by rewrite <- app_assoc.
  - rewrite guarded_includes by done.
    destruct (Str.includes msg _); cbn; by rewrite <- app_assoc.
  - destruct (String.eqb code _); cbn; by rewrite <- app_assoc.
Qed.

Lemma responses_app (t u : list Event) :
  responses (t ++ u) = responses t ++ responses u.
Proof. apply omap_app. Qed.

Lemma outbound_app (t u : list Event) :
  outbound (t ++ u) = outbound t ++ outbound u.
Proof. apply omap_app. Qed.

Lemma unlinked_app (t u : list Event) :
  unlinked (t ++ u) = unlinked t ++ unlinked u.
Proof. apply omap_app. Qed.

Lemma streamed_app (t u : list Event) :
  streamed (t ++ u) = streamed t ++ streamed u.
Proof. apply omap_app. Qed.

End Uploads.

(** ** The text-only endpoint, in both deployments *)

Section SendMessage.

Lemma falsy_field (a b c : JsValue) :
  truthy a = false \/ truthy b = false \/ truthy c = false ->
  negb (truthy a) || negb (truthy b) || negb (truthy c) = true.
Proof.
  intros [-> | [-> | ->]]; simpl; [done | |];
    destruct (truthy a); simpl; [| done | | done];
    try done; by destruct (truthy b).
Qed.

Lemma server_send_message_missing (env : Env) (body : Req.MessageBody)
    (w : World) :
  Spec.some_field_missing body ->
  Server.send_message env body w
  = (Ok tt,
     {| fs := fs w;
        trace := trace w ++
          [Respond (Res.mkResponse 400 false
                      "Name, email, and message are required.")] |}).
Proof.
  intros H%falsy_field.
  unfold Server.send_message, try_catch. by rewrite H.
Qed.

Lemma filled_truthy (v : JsValue) : Spec.filled v -> truthy v = true.
Proof. intros (s & -> & Hs). by destruct s. Qed.

Lemma server_send_message_run (env : Env) (n e m : string) (w : World) :
  n <> EmptyString -> e <> EmptyString -> m <> EmptyString ->
  Spec.configured env ->
  let c := server_call env n e m in
  Server.send_message env (Req.mkMessageBody (JStr n) (JStr e) (JStr m)) w
  = (Ok tt,
     {| fs := fs w;
        trace := (trace w ++ [Fetch c]) ++ server_after (telegram env c) |}).
Proof.
  intros Hn He Hm [Ht Hc] c.
  unfold Server.send_message, try_catch.
  cbn [Req.name Req.email Req.message truthy].
  apply str_nonempty_true in Hn, He, Hm. rewrite Hn, He, Hm, Ht, Hc.
  cbn [negb orb]. unfold bind at 1, lift at 1.
  rewrite !server_sanitize_string.
  unfold bind, lift, Server.sendTelegramTextMessage, fetch.
  subst c. unfold server_call, server_text, sendMessage_url.
  unfold console_error, respond, emit. cbv zeta.
  match goal with
  | |- context [telegram env ?x] => destruct (telegram env x) as [err | [|]]
  end; cbn [fs trace server_after]; by rewrite <- ?app_assoc.
Qed.

(** The second deployment relays whatever it is given: it has no test of
    the fields at all. *)
Lemma legacy_send_message_run (env : Env) (body : Req.MessageBody)
    (w : World) :
  let c := legacy_call env body in
  Legacy.send_message env body w
  = (Ok tt,
     {| fs := fs w;
        trace := (trace w ++ [Fetch c]) ++ legacy_after (telegram env c) |}).
Proof.
  intros c. unfold Legacy.send_message, try_catch, bind, fetch.
  subst c. unfold legacy_call, legacy_text, sendMessage_url.
  unfold console_error, respond, emit. cbv zeta.
  match goal with
  | |- context [telegram env ?x] => destruct (telegram env x) as [err | [|]]
  end; cbn [fs trace legacy_after]; by rewrite <- ?app_assoc.
Qed.

End SendMessage.

(** ** The sample data are well formed *)

Section Samples.

Lemma sample_body_valid : Spec.valid_submission sample_body.
Proof. repeat split; eexists; (split; [reflexivity | discriminate]). Defined.

Lemma sample_env_configured : Spec.configured sample_env.
Proof. split; reflexivity. Defined.

Lemma failing_env_configured : Spec.configured failing_env.
Proof. split; reflexivity. Defined.

End Samples.

(** ** Claims about the text-only endpoint *)

Section SendMessageClaims.

Lemma verdicts_app (t u : list Event) :
  Spec.verdicts (t ++ u) = Spec.verdicts t ++ Spec.verdicts u.
Proof. unfold Spec.verdicts. by rewrite responses_app, map_app. Qed.

Lemma server_after_outbound (r : FetchOutcome) : outbound (server_after r) = [].
Proof. by destruct r as [|[|]]. Qed.

Lemma legacy_after_outbound (r : FetchOutcome) : outbound (legacy_after r) = [].
Proof. by destruct r as [|[|]]. Qed.

Lemma after_verdicts (r : FetchOutcome) :
  Spec.verdicts (server_after r) = Spec.verdicts (legacy_after r).
Proof. by destruct r as [|[|]]. Qed.

(** C4, as amended: in [server.js], a request to [POST /send-message] with
    one of [name], [email], [message] missing is answered by exactly one
    response, 400 with [{success: false, message}], and the bot API is not
    called. *)
Theorem server_rejects_missing_fields (env : Env) (body : Req.MessageBody)
    (w : World) :
  Spec.some_field_missing body ->
  responses (trace (snd (Server.send_message env body w)))
  = responses (trace w)
    ++ [Res.mkResponse 400 false "Name, email, and message are required."] /\
  outbound (trace (snd (Server.send_message env body w))) = outbound (trace w).
Proof.
  intros H. rewrite server_send_message_missing by done.
  cbn [snd trace]. rewrite responses_app, outbound_app. cbn.
  by rewrite app_nil_r.
Qed.

Lemma server_rejects_missing_fields_witness :
  Spec.some_field_missing nameless_body /\
  responses (trace (snd (Server.send_message sample_env nameless_body
                           empty_world)))
  = [Res.mkResponse 400 false "Name, email, and message are required."] /\
  outbound (trace (snd (Server.send_message sample_env nameless_body
                          empty_world))) = [].
Proof.
  assert (Spec.some_field_missing nameless_body) as H by (left; reflexivity).
  split; [exact H|].
  exact (server_rejects_missing_fields sample_env nameless_body empty_world H).
Defined.

(** C4, as stated, fails on the second deployment: it has no validation,
    so a request without [name] is relayed to the bot API and answered
    with 200. *)
Lemma legacy_relays_missing_fields :
  Spec.some_field_missing nameless_body /\
  outbound (trace (snd (Legacy.send_message sample_env nameless_body
                          empty_world)))
  = [legacy_call sample_env nameless_body] /\
  responses (trace (snd (Legacy.send_message sample_env nameless_body
                           empty_world)))
  = [Res.mkResponse 200 true "Message sent successfully!"] /\
  ~ Spec.rejects_missing_fields Legacy.send_message.
Proof.
  assert (Spec.some_field_missing nameless_body) as Hmiss
    by (left; reflexivity).
  split; [exact Hmiss|].
  rewrite legacy_send_message_run. cbn [snd trace].
  split; [reflexivity|]. split; [reflexivity|].
  intros H.
  destruct (H sample_env nameless_body empty_world Hmiss) as [_ Hout].
  rewrite legacy_send_message_run in Hout. cbn [snd trace] in Hout.
  rewrite !outbound_app, legacy_after_outbound in Hout. discriminate Hout.
Qed.

(** C8: for a request to [POST /send-message] whose three fields are
    non-empty strings, with both secrets configured, each deployment
    answers 200 with [success: true] when the bot API replies [ok: true],
    and 500 with [success: false] when it replies [ok: false]. *)
Theorem send_message_follows_reply (env : Env) (body : Req.MessageBody)
    (ok : bool) (w : World) :
  Spec.valid_submission body ->
  Spec.configured env ->
  (forall c, telegram env c = Resolves ok) ->
  Spec.verdicts (trace (snd (Server.send_message env body w)))
  = Spec.verdicts (trace w) ++ [(if ok then 200 else 500, ok)] /\
  Spec.verdicts (trace (snd (Legacy.send_message env body w)))
  = Spec.verdicts (trace w) ++ [(if ok then 200 else 500, ok)].
Proof.
  intros ((n & Hn & Hn') & (e & He & He') & (m & Hm & Hm')) Hcfg Hreply.
  destruct body as [bn be bm]. cbn in Hn, He, Hm. subst bn be bm.
  rewrite server_send_message_run, legacy_send_message_run by done.
  cbn [snd trace]. rewrite !verdicts_app, !Hreply.
  split; destruct ok; cbn; by rewrite app_nil_r.
Qed.

Lemma send_message_follows_reply_witness :
  Spec.verdicts (trace (snd (Server.send_message sample_env sample_body
                               empty_world))) = [(200, true)] /\
  Spec.verdicts (trace (snd (Server.send_message failing_env sample_body
                               empty_world))) = [(500, false)].
Proof.
  split.
  - exact (proj1 (send_message_follows_reply sample_env sample_body true
                    empty_world sample_body_valid sample_env_configured
                    (fun _ => eq_refl))).
  - exact (proj1 (send_message_follows_reply failing_env sample_body false
                    empty_world sample_body_valid failing_env_configured
                    (fun _ => eq_refl))).
Defined.

(** C9, as stated, fails in both of its parts: the sanitizers differ on
    the number 5, and the handlers differ on a request without [name]
    (400 and no call in [server.js]; one call and 200 in the second
    deployment). *)
Lemma deployments_differ :
  Server.sanitizeInput (JNum 5)
  = Throw (mkError KTypeError "text.replace is not a function") /\
  Legacy.sanitizeInput (JNum 5) = EmptyString /\
  Spec.verdicts (trace (snd (Server.send_message sample_env nameless_body
                               empty_world))) = [(400, false)] /\
  Spec.verdicts (trace (snd (Legacy.send_message sample_env nameless_body
                               empty_world))) = [(200, true)] /\
  ~ Spec.sanitizers_equivalent /\ ~ Spec.handlers_equivalent /\
  ~ Spec.deployments_equivalent.
Proof.
  assert (~ Spec.sanitizers_equivalent) as Hs.
  { intros H. specialize (H (JNum 5)). discriminate H. }
  assert (~ Spec.handlers_equivalent) as Hh.
  { intros H.
    destruct (H sample_env nameless_body empty_world sample_env_configured)
      as [_ Hlen].
    rewrite server_send_message_missing in Hlen by (left; reflexivity).
    rewrite legacy_send_message_run in Hlen. cbn [snd trace] in Hlen.
    rewrite !outbound_app, legacy_after_outbound in Hlen.
    discriminate Hlen. }
  split; [reflexivity|]. split; [reflexivity|].
  split; [by rewrite server_send_message_missing by (left; reflexivity)|].
  split; [by rewrite legacy_send_message_run|].
  split; [done|]. split; [done|]. by intros [H _].
Qed.

(** C9, as amended: the two sanitizers give the same output on every
    string and on every falsy value. On a request whose three fields are
    non-empty strings, with both secrets configured, each handler makes
    exactly one [sendMessage] call, to the same URL, chat and parse mode;
    whenever the bot API gives the two calls the same reply, both answer
    with the same status and success flag, and when that reply is
    [ok: true] both answer 200 with the same body. On a request with a
    missing field the two part: [server.js] calls nobody, the second
    deployment makes its call. *)
Theorem deployments_agree_on_valid_requests (env : Env)
    (body : Req.MessageBody) (w : World) :
  Spec.valid_submission body ->
  Spec.configured env ->
  (forall v, sanitizable v ->
     Server.sanitizeInput v = Ok (Legacy.sanitizeInput v)) /\
  (exists url chat text1 text2,
     let c1 := mkCall url (JsonBody chat text1 "HTML") in
     let c2 := mkCall url (JsonBody chat text2 "HTML") in
     outbound (trace (snd (Server.send_message env body w)))
     = outbound (trace w) ++ [c1] /\
     outbound (trace (snd (Legacy.send_message env body w)))
     = outbound (trace w) ++ [c2] /\
     (telegram env c1 = telegram env c2 ->
      Spec.verdicts (trace (snd (Server.send_message env body w)))
      = Spec.verdicts (trace (snd (Legacy.send_message env body w)))) /\
     (telegram env c1 = Resolves true -> telegram env c2 = Resolves true ->
      responses (trace (snd (Server.send_message env body w)))
      = responses (trace w)
        ++ [Res.mkResponse 200 true "Message sent successfully!"] /\
      responses (trace (snd (Legacy.send_message env body w)))
      = responses (trace w)
        ++ [Res.mkResponse 200 true "Message sent successfully!"])) /\
  (forall other,
     Spec.some_field_missing other ->
     outbound (trace (snd (Server.send_message env other w)))
     = outbound (trace w) /\
     length (outbound (trace (snd (Legacy.send_message env other w))))
     = S (length (outbound (trace w)))).
Proof.
  intros ((n & Hn & Hn') & (e & He & He') & (m & Hm & Hm')) Hcfg.
  split; [intros v Hv; by apply sanitizers_agree|].
  split.
  - destruct body as [bn be bm]. cbn in Hn, He, Hm. subst bn be bm.
    eexists (sendMessage_url env), (interpolate (TELEGRAM_CHAT_ID env)), _, _.
    cbv zeta.
    rewrite server_send_message_run, legacy_send_message_run by done.
    cbn [snd trace].
    rewrite !outbound_app, server_after_outbound, legacy_after_outbound.
    rewrite !app_nil_r, !verdicts_app, !responses_app.
    split; [reflexivity|]. split; [reflexivity|].
    change (mkCall (sendMessage_url env)
              (JsonBody (interpolate (TELEGRAM_CHAT_ID env))
                 (server_text n e m) "HTML"))
      with (server_call env n e m).
    change (mkCall (sendMessage_url env)
              (JsonBody (interpolate (TELEGRAM_CHAT_ID env)) ?t "HTML"))
      with (legacy_call env (Req.mkMessageBody (JStr n) (JStr e) (JStr m))).
    split.
    + intros Heq. by rewrite Heq, after_verdicts.
    + intros -> ->. cbn. by rewrite !app_nil_r.
  - intros other Hmiss. split.
    + rewrite server_send_message_missing by done. cbn [snd trace].
      rewrite outbound_app. cbn. by rewrite app_nil_r.
    + rewrite legacy_send_message_run. cbn [snd trace].
      rewrite !outbound_app, legacy_after_outbound, app_nil_r, length_app.
      cbn. lia.
Qed.

Lemma deployments_agree_on_valid_requests_witness :
  Spec.verdicts (trace (snd (Server.send_message sample_env sample_body
                               empty_world)))
  = Spec.verdicts (trace (snd (Legacy.send_message sample_env sample_body
                                 empty_world))).
Proof.
  destruct (deployments_agree_on_valid_requests sample_env sample_body
              empty_world sample_body_valid sample_env_configured)
    as (_ & (u & c & t1 & t2 & _ & _ & H & _) & _).
  exact (H eq_refl).
Defined.

End SendMessageClaims.

(** ** Removing a file *)

Section RemoveFile.

(** The four ways [removeFile] can go. *)
Lemma removeFile_cases (env : Env) (p : string) (w : World) :
  (Server.insideUploads env p = false /\
   Server.removeFile env p w
   = (Ok tt,
      {| fs := fs w;
         trace := trace w ++
           [ConsoleError
              "Attempted to remove file outside uploads directory:"] |}))
  \/ (Server.insideUploads env p = true /\ stat env (fs w) p = None /\
      Server.removeFile env p w = (Ok tt, w))
  \/ (exists key,
        Server.insideUploads env p = true /\
        stat env (fs w) p = Some (key, RegularFile) /\
        Server.removeFile env p w
        = (Ok tt, {| fs := delete key (fs w); trace := trace w ++ [Unlink p] |}))
  \/ (exists key,
        Server.insideUploads env p = true /\
        stat env (fs w) p = Some (key, Directory) /\
        Server.removeFile env p w
        = (Ok tt,
           {| fs := fs w;
              trace := trace w ++
                [Unlink p; ConsoleError "Error removing file:"] |})).
Proof.
  unfold Server.removeFile.
  destruct (Server.insideUploads env p) eqn:Hin; cbn [negb].
  - right. unfold bind, existsSync, unlink, ret.
    destruct (stat env (fs w) p) as [[key [|]]|] eqn:Hk; cbn [fst];
      rewrite ?Hk.
    + right; left. by exists key.
    + right; right. by exists key.
    + left. by destruct w.
  - by left.
Qed.

(** [removeFile] never throws, answers nothing, calls nobody and reads
    nothing. *)
Lemma removeFile_quiet (env : Env) (p : string) (w : World) :
  exists w',
    Server.removeFile env p w = (Ok tt, w') /\
    responses (trace w') = responses (trace w) /\
    outbound (trace w') = outbound (trace w) /\
    streamed (trace w') = streamed (trace w).
Proof.
  destruct (removeFile_cases env p w)
    as [[_ ->] | [(_ & _ & ->) | [(? & _ & _ & ->) | (? & _ & _ & ->)]]];
    eexists; (split; [reflexivity|]); cbn [trace];
    rewrite ?responses_app, ?outbound_app, ?streamed_app; cbn;
    by rewrite ?app_nil_r.
Qed.

End RemoveFile.

(** ** The error mapper *)

Section ErrorMapper.

Lemma send_file_catch_maps (env : Env) (err : JsError) (fr : Server.Frame) :
  exists w',
    Server.send_file_catch env err fr
    = (Ok tt, {| Server.world := w'; Server.filePath := Server.filePath fr |})
    /\ responses (trace w')
       = responses (trace (Server.world fr)) ++ [Spec.caught_response err]
    /\ outbound (trace w') = outbound (trace (Server.world fr))
    /\ streamed (trace w') = streamed (trace (Server.world fr)).
Proof.
  destruct fr as [w fp].
  assert (exists w1,
    Server.removeIfFilePath env
      {| Server.world := w; Server.filePath := fp |}
    = (Ok tt, {| Server.world := w1; Server.filePath := fp |})
    /\ responses (trace w1) = responses (trace w)
    /\ outbound (trace w1) = outbound (trace w)
    /\ streamed (trace w1) = streamed (trace w)) as (w1 & Hrun & Hr & Ho & Hs).
  { unfold Server.removeIfFilePath, bind, Server.get_filePath.
    cbn [Server.filePath].
    destruct fp as [p|]; [|by exists w].
    destruct (str_nonempty p); [|by exists w].
    destruct (removeFile_quiet env p w) as (w1 & Hrm & ?).
    exists w1. unfold Server.liftW. cbn [Server.world Server.filePath].
    by rewrite Hrm. }
  unfold Server.send_file_catch. unfold bind at 1. rewrite Hrun.
  unfold Spec.caught_response, Spec.mapped_response, Spec.classify,
    is_multer, has_code.
  destruct err as [k msg]. cbn [kind Js.message].
  unfold bind, Server.liftW, console_error, respond, emit.
  cbn [Server.world Server.filePath fs trace].
  destruct k as [| |code]; [| |destruct (String.eqb code _)];
    eexists; (split; [reflexivity|]); cbn [trace Server.world];
    rewrite ?responses_app, ?outbound_app, ?streamed_app, Hr, Ho, Hs; cbn;
    by rewrite ?app_nil_r.
Qed.

(** C5, as amended: each of the two error mappers turns every error into
    exactly one JSON response and never throws. The error-handling
    middleware classifies as section 4.6 says: a size violation gives 400
    with the fixed message, any other multer error 400 with the underlying
    message interpolated, a disallowed-type error 400, anything else 500
    with a generic message. The [catch] block of [/send-file] maps multer
    errors in the same way and every other error to 500 with the error's
    own message, falling back on a generic message only when that message
    is empty. *)
Theorem errors_are_mapped (env : Env) (err : JsError) (w : World)
    (fr : Server.Frame) :
  Server.errorHandler err w
  = (Ok tt,
     {| fs := fs w;
        trace := trace w ++ [ConsoleError "Global error handler:";
                             Respond (Spec.mapped_response err)] |}) /\
  fst (Server.send_file_catch env err fr) = Ok tt /\
  responses (trace (Server.world (snd (Server.send_file_catch env err fr))))
  = responses (trace (Server.world fr)) ++ [Spec.caught_response err].
Proof.
  split; [apply errorHandler_maps|].
  destruct (send_file_catch_maps env err fr) as (w' & -> & Hr & _).
  done.
Qed.

(** C5, as stated, fails on the [catch] block of [/send-file]: an error
    that is neither a multer error nor a disallowed-type error, such as the
    path guard's, is answered with its own message and not with a generic
    one, and a disallowed-type error would be answered with 500. *)
Lemma catch_block_echoes_message :
  responses
    (trace (Server.world
              (snd (Server.send_file_catch sample_env Server.invalidFilePath
                      {| Server.world := empty_world;
                         Server.filePath := None |}))))
  = [Res.mkResponse 500 false "Invalid file path"] /\
  Spec.mapped_response Server.invalidFilePath
  = Res.mkResponse 500 false "An unexpected error occurred." /\
  ~ (forall env err fr,
       responses
         (trace (Server.world (snd (Server.send_file_catch env err fr))))
       = responses (trace (Server.world fr)) ++ [Spec.mapped_response err]).
Proof.
  split; [reflexivity|]. split; [reflexivity|].
  intros H.
  specialize (H sample_env Server.invalidFilePath
                {| Server.world := empty_world; Server.filePath := None |}).
  vm_compute in H. discriminate H.
Qed.

End ErrorMapper.

(** ** Paths: segments, normalisation and the prefix test *)

Section PathFacts.

Lemma slashfree_cons (c : ascii) (s : string) :
  slashfree (String c s) <-> Ascii.eqb c Path.slash = false /\ slashfree s.
Proof. unfold slashfree. simpl. apply orb_false_iff. Qed.

Lemma split_not_nil (p : string) : Path.split p <> [].
Proof.
  destruct p as [|c p]; simpl; [done|].
  destruct (Ascii.eqb c Path.slash); [done|]. by destruct (Path.split p).
Qed.

Lemma split_slashfree (p : string) : Forall slashfree (Path.split p).
Proof.
  induction p as [|c p IH]; simpl.
  - by constructor.
  - destruct (Ascii.eqb c Path.slash) eqn:Hc.
    + by constructor.
    + destruct (Path.split p) as [|h t]; [by repeat constructor; apply slashfree_cons|].
      inversion IH; subst. constructor; [by apply slashfree_cons | done].
Qed.

Lemma split_slashfree_app (s t : string) :
  slashfree s -> Path.split (s +:+ "/" +:+ t) = s :: Path.split t.
Proof.
  induction s as [|c s IH]; intros Hs; [done|].
  apply slashfree_cons in Hs as [Hc Hs].
  rewrite append_cons. simpl. rewrite Hc, IH by done. done.
Qed.

Lemma split_slashfree_id (s : string) : slashfree s -> Path.split s = [s].
Proof.
  induction s as [|c s IH]; intros Hs; [done|].
  apply slashfree_cons in Hs as [Hc Hs].
  simpl. by rewrite Hc, IH.
Qed.

Lemma split_joinSegs (l : list string) :
  Forall slashfree l -> l <> [] -> Path.split (Path.joinSegs l) = l.
Proof.
  induction l as [|s l IH]; [done|]. intros Hl _.
  inversion Hl as [|? ? Hs Hl']; subst.
  destruct l as [|s' l]; [by apply split_slashfree_id|].
  change (Path.joinSegs (s :: s' :: l))
    with (s +:+ "/" +:+ Path.joinSegs (s' :: l)).
  by rewrite split_slashfree_app, IH.
Qed.

Lemma segment_dotdot : segment "..".
Proof. by split. Qed.

Lemma normalizeGo_segments (allow : bool) (segs acc : list string) :
  Forall segment acc -> Forall slashfree segs ->
  Forall segment (Path.normalizeGo allow acc segs).
Proof.
  revert acc. induction segs as [|s segs IH]; intros acc Hacc Hsegs; simpl.
  - by apply Forall_rev.
  - inversion Hsegs as [|? ? Hs Hsegs']; subst.
    destruct (String.eqb s "") eqn:He; [by apply IH|].
    destruct (String.eqb s "."); [by apply IH|]. cbn [orb].
    destruct (String.eqb s "..").
    + destruct acc as [|top acc'].
      * apply IH; [|done]. destruct allow; [|done].
        repeat constructor; apply segment_dotdot.
      * destruct (String.eqb top "..").
        -- apply IH; [|done]. destruct allow; [|done].
           constructor; [apply segment_dotdot | done].
        -- apply IH; [|done]. by inversion Hacc.
    + apply IH; [|done]. constructor; [|done].
      split; [|done]. by apply String.eqb_neq.
Qed.

Lemma components_absolute (l : list string) :
  Forall segment l -> Path.components ("/" +:+ Path.joinSegs l) = l.
Proof.
  intros Hl. unfold Path.components.
  change ("/" +:+ Path.joinSegs l) with (String Path.slash (Path.joinSegs l)).
  cbn [Path.split]. rewrite Ascii.eqb_refl.
  assert (filter (λ s, s <> EmptyString) l = l) as Hfilter.
  { clear -Hl. induction Hl as [|s l [Hs _] _ IH]; [done|].
    by rewrite filter_cons_True, IH. }
  destruct l as [|s l]; [done|].
  rewrite filter_cons_False by (intros H; by apply H).
  rewrite split_joinSegs; [done| |done].
  eapply Forall_impl; [exact Hl|]. by intros ? [_ ?].
Qed.

(** With an absolute working directory, [path.resolve] yields the root
    followed by proper segments. *)
Lemma resolve_shape (cwd p : string) :
  Path.isAbsolute cwd = true ->
  exists l, Forall segment l /\ Path.resolve cwd p = "/" +:+ Path.joinSegs l.
Proof.
  intros Habs. unfold Path.resolve.
  assert (snd (Path.resolveRaw cwd p) = true) as Hraw.
  { unfold Path.resolveRaw.
    destruct (String.eqb p ""); cbn [snd fst].
    - destruct cwd; [done|]. by cbn.
    - destruct (Path.isAbsolute p); [done|].
      destruct cwd; [done|]. by cbn. }
  destruct (Path.resolveRaw cwd p) as [raw abs]. cbn in Hraw. subst abs.
  eexists. split; [|reflexivity].
  apply normalizeGo_segments; [constructor | apply split_slashfree].
Qed.

Lemma prefix_refl (s : string) : String.prefix s s = true.
Proof.
  induction s as [|a s IH]; [done|]. simpl. by destruct (ascii_dec a a).
Qed.

Lemma prefix_app (s t : string) : String.prefix s (s +:+ t) = true.
Proof.
  induction s as [|a s IH]; [by destruct t|].
  rewrite append_cons. simpl. by destruct (ascii_dec a a).
Qed.

Lemma prefix_empty_r (s : string) :
  String.prefix s EmptyString = true -> s = EmptyString.
Proof. by destruct s. Qed.

Lemma slash_app (a : string) : "/" +:+ a = String Path.slash a.
Proof. reflexivity. Qed.

Lemma prefix_cons_cons (a b : ascii) (s t : string) :
  String.prefix (String a s) (String b t)
  = if Ascii.eqb a b then String.prefix s t else false.
Proof.
  change (String.prefix (String a s) (String b t))
    with (if ascii_dec a b then String.prefix s t else false).
  destruct (ascii_dec a b) as [->|Hne].
  - by rewrite Ascii.eqb_refl.
  - apply Ascii.eqb_neq in Hne. by rewrite Hne.
Qed.

(** Two slash-free segments, each followed by a separator: the first
    string is a prefix of the second only if the segments are equal. *)
Lemma prefix_segment (s t a b : string) :
  slashfree s -> slashfree t ->
  String.prefix (s +:+ String Path.slash a) (t +:+ String Path.slash b) = true ->
  s = t /\ String.prefix a b = true.
Proof.
  revert t. induction s as [|c s IH]; intros t Hs Ht.
  - destruct t as [|d t]; [by intros H|].
    apply slashfree_cons in Ht as [Hd _].
    rewrite append_empty_l, append_cons, prefix_cons_cons.
    rewrite Ascii.eqb_sym, Hd. done.
  - apply slashfree_cons in Hs as [Hc Hs].
    destruct t as [|d t].
    + rewrite append_empty_l, append_cons, prefix_cons_cons.
      by rewrite Hc.
    + apply slashfree_cons in Ht as [_ Ht].
      rewrite !append_cons, prefix_cons_cons.
      destruct (Ascii.eqb c d) eqn:Hcd; [|done].
      apply Ascii.eqb_eq in Hcd as ->.
      intros H. destruct (IH t Hs Ht H) as [-> ?]. done.
Qed.

Lemma enc_prefix (u a : list string) :
  Forall segment u -> Forall segment a ->
  String.prefix (enc u) (enc a) = true -> u `prefix_of` a.
Proof.
  revert a. induction u as [|s u IH]; intros a Hu Ha H.
  - apply prefix_nil.
  - inversion Hu as [|? ? [Hs1 Hs2] Hu']; subst.
    destruct a as [|t a].
    + cbn in H. apply prefix_empty_r in H. by destruct s.
    + inversion Ha as [|? ? [Ht1 Ht2] Ha']; subst.
      cbn [enc foldr] in H. rewrite !slash_app in H.
      apply prefix_segment in H as [-> H]; [|done..].
      apply prefix_cons. by apply IH.
Qed.

Lemma enc_app (u k : list string) : enc (u ++ k) = enc u +:+ enc k.
Proof.
  induction u as [|s u IH]; [done|].
  cbn [enc foldr app]. fold (enc (u ++ k)). fold (enc u).
  by rewrite IH, !append_assoc.
Qed.

Lemma joinSegs_enc (l : list string) :
  l <> [] -> Path.joinSegs l +:+ "/" = enc l.
Proof.
  induction l as [|s l IH]; [done|]. intros _.
  destruct l as [|s' l]; [done|].
  change (Path.joinSegs (s :: s' :: l))
    with (s +:+ "/" +:+ Path.joinSegs (s' :: l)).
  change (enc (s :: s' :: l)) with (s +:+ "/" +:+ enc (s' :: l)).
  rewrite <- IH by done. by rewrite !append_assoc.
Qed.

Lemma endsWith_slashfree (t : string) :
  slashfree t -> Str.endsWith t "/" = false.
Proof.
  induction t as [|c t IH]; intros Ht; [done|].
  apply slashfree_cons in Ht as [Hc Ht].
  cbn [Str.endsWith]. rewrite IH by done.
  destruct (String.eqb (String c t) "/") eqn:E; [|done].
  apply String.eqb_eq in E. injection E as -> ->. discriminate Hc.
Qed.

Lemma endsWith_app (s t : string) :
  t <> EmptyString -> Str.endsWith (s +:+ t) "/" = Str.endsWith t "/".
Proof.
  intros Ht. induction s as [|c s IH]; [done|].
  rewrite append_cons. cbn [Str.endsWith]. rewrite IH.
  destruct (String.eqb (String c (s +:+ t)) "/") eqn:E; [|done].
  apply String.eqb_eq in E. injection E as -> E.
  destruct s; [by destruct t | discriminate E].
Qed.

(** A resolved path ends with a separator only when it is the root. *)
Lemma endsWith_joinSegs (l : list string) :
  Forall segment l -> l <> [] ->
  Str.endsWith ("/" +:+ Path.joinSegs l) "/" = false.
Proof.
  induction l as [|s l IH]; [done|]. intros Hl _.
  inversion Hl as [|? ? [Hs1 Hs2] Hl']; subst.
  destruct l as [|s' l].
  - cbn [Path.joinSegs]. rewrite endsWith_app by done.
    by apply endsWith_slashfree.
  - change (Path.joinSegs (s :: s' :: l))
      with (s +:+ "/" +:+ Path.joinSegs (s' :: l)).
    rewrite <- append_assoc, endsWith_app; [by apply IH|].
    by rewrite slash_app.
Qed.

(** The string test of [removeFile] and [sendTelegramFile] decides
    containment by path components: it accepts a candidate exactly when
    the components of its resolved form start with those of the resolved
    uploads directory. *)
Lemma insideUploads_within (env : Env) (p : string) :
  Path.isAbsolute (cwd env) = true ->
  Server.insideUploads env p = true <-> Spec.within env p.
Proof.
  intros Habs. unfold Server.insideUploads, Spec.within.
  destruct (resolve_shape (cwd env) p Habs) as (a & Ha & ->).
  destruct (resolve_shape (cwd env) (Server.uploadsDir env) Habs)
    as (u & Hu & ->).
  rewrite !components_absolute by done.
  unfold Str.startsWith, Path.sep.
  destruct u as [|s u].
  - change ("/" +:+ Path.joinSegs []) with "/".
    change (Str.endsWith "/" "/") with true. cbv iota.
    rewrite append_assoc, prefix_app. split; [intros _; apply prefix_nil | done].
  - rewrite endsWith_joinSegs by done.
    rewrite !append_assoc, (joinSegs_enc (s :: u)) by done.
    rewrite !slash_app, prefix_cons_cons, Ascii.eqb_refl.
    destruct a as [|t a].
    + split.
      * inversion Hu as [|? ? [Hs1 Hs2] _]; subst.
        change (Path.joinSegs [] +:+ "/") with (String Path.slash EmptyString).
        change (enc (s :: u)) with (s +:+ "/" +:+ enc u).
        destruct s as [|c s]; [done|].
        apply slashfree_cons in Hs2 as [Hc _].
        rewrite append_cons, prefix_cons_cons, Hc. done.
      * intros [k Hk]. discriminate Hk.
    + rewrite (joinSegs_enc (t :: a)) by done. split.
      * by apply enc_prefix.
      * intros [k ->]. rewrite enc_app. apply prefix_app.
Qed.

Lemma insideUploads_root (env : Env) (p : string) :
  Path.resolve (cwd env) p = Path.resolve (cwd env) (Server.uploadsDir env) ->
  Server.insideUploads env p = true.
Proof.
  intros Heq. unfold Server.insideUploads, Str.startsWith. rewrite Heq.
  destruct (Str.endsWith _ _); [apply prefix_app | apply prefix_refl].
Qed.

End PathFacts.

(** ** Claims about the path guard *)

Section PathGuardClaims.

(** C1: a candidate path whose resolved form lies outside the uploads
    directory (it is neither the directory nor below it) is refused by both
    guarded operations. [removeFile] logs the violation and returns: the
    file system is as before and nothing was unlinked. [sendTelegramFile]
    throws [Invalid file path] with the world untouched: no read stream was
    opened and the bot API was not called. *)
Theorem outside_paths_are_refused (env : Env) (file : Server.UploadedFile)
    (chatId caption : string) (isImage : bool) (w : World) :
  Path.isAbsolute (cwd env) = true ->
  ~ Spec.within env (Server.path file) ->
  Server.removeFile env (Server.path file) w
  = (Ok tt,
     {| fs := fs w;
        trace := trace w ++
          [ConsoleError
             "Attempted to remove file outside uploads directory:"] |}) /\
  Server.sendTelegramFile env chatId file caption isImage w
  = (Throw Server.invalidFilePath, w).
Proof.
  intros Habs Hout.
  assert (Server.insideUploads env (Server.path file) = false) as Hguard.
  { destruct (Server.insideUploads env (Server.path file)) eqn:E; [|done].
    by apply insideUploads_within in E. }
  unfold Server.removeFile, Server.sendTelegramFile. rewrite Hguard. done.
Qed.

Lemma outside_paths_are_refused_witness :
  unlinked (trace (snd (Server.removeFile sample_env
                          (Server.path outside_file) uploads_only))) = [] /\
  Server.sendTelegramFile sample_env "42" outside_file "" false uploads_only
  = (Throw Server.invalidFilePath, uploads_only).
Proof.
  assert (~ Spec.within sample_env (Server.path outside_file)) as Hout.
  { intros [k Hk]. vm_compute in Hk. discriminate Hk. }
  destruct (outside_paths_are_refused sample_env outside_file "42" "" false
              uploads_only eq_refl Hout) as [Hrm Hsend].
  split; [|exact Hsend].
  rewrite Hrm. reflexivity.
Defined.

(** C10: a candidate path that resolves to the uploads directory itself
    passes the prefix test. [removeFile] logs no violation and goes on to
    [existsSync] on the path as given and, when the kernel finds something
    at it, to [unlink]; [sendTelegramFile] does not throw
    [Invalid file path] and opens the read stream on the path. *)
Theorem uploads_root_is_accepted (env : Env) (file : Server.UploadedFile)
    (chatId caption : string) (isImage : bool) (w : World) :
  Path.resolve (cwd env) (Server.path file)
  = Path.resolve (cwd env) (Server.uploadsDir env) ->
  Server.insideUploads env (Server.path file) = true /\
  Server.removeFile env (Server.path file) w
  = (if fst (existsSync env (Server.path file) w) is Ok true
     then unlink env (Server.path file) w else (Ok tt, w)) /\
  (is_Some (stat env (fs w) (Server.path file)) ->
   unlinked (trace (snd (Server.removeFile env (Server.path file) w)))
   = unlinked (trace w) ++ [Server.path file]) /\
  streamed (trace (snd (Server.sendTelegramFile env chatId file caption
                          isImage w)))
  = streamed (trace w) ++ [Server.path file].
Proof.
  intros Heq. pose proof (insideUploads_root env _ Heq) as Hguard.
  split; [done|].
  unfold Server.removeFile, Server.sendTelegramFile. rewrite Hguard.
  cbn [negb]. unfold bind, existsSync, unlink, emit, fetch, ret.
  cbn [fst snd fs trace].
  split; [|split].
  - destruct (stat env (fs w) (Server.path file)) as [[key [|]]|] eqn:E;
      cbv beta iota; rewrite ?E; reflexivity.
  - intros [[key n] Hn]. rewrite Hn. cbv beta iota. rewrite Hn.
    destruct n; cbn [snd trace]; rewrite unlinked_app; cbn; done.
  - destruct (telegram env _); cbn [snd trace];
      rewrite !streamed_app; cbn; by rewrite app_nil_r.
Qed.

Lemma uploads_root_is_accepted_witness :
  Server.insideUploads sample_env (Server.path root_file) = true /\
  unlinked (trace (snd (Server.removeFile sample_env (Server.path root_file)
                          uploads_only))) = ["/srv/app/uploads/"] /\
  streamed (trace (snd (Server.sendTelegramFile sample_env "42" root_file ""
                          false uploads_only))) = ["/srv/app/uploads/"].
Proof.
  destruct (uploads_root_is_accepted sample_env root_file "42" "" false
              uploads_only eq_refl) as (Hin & _ & Hrm & Hsend).
  split; [exact Hin|]. split; [|exact Hsend].
  apply Hrm. exists ("/srv/app/uploads", Directory). by vm_compute.
Defined.

(** The lexical form of a path says nothing about the directories on the
    way: [uploads/ghost/..] resolves to the uploads directory, and with no
    [ghost] in it the kernel finds nothing there, so [removeFile] passes
    the guard and stops at [existsSync]. *)
Example missing_directory_on_the_way :
  Path.resolve (cwd sample_env) "uploads/ghost/.."
  = Path.resolve (cwd sample_env) (Server.uploadsDir sample_env) /\
  Server.removeFile sample_env "uploads/ghost/.." uploads_only
  = (Ok tt, uploads_only).
Proof. by vm_compute. Qed.

End PathGuardClaims.

(** ** Claims about the upload route *)

Section UploadClaims.

Lemma upload_single_rejected (env : Env) (now rnd : N)
    (f : Server.IncomingFile) (w : World) :
  Server.in_mimetype f ∉ Server.allowedMimes ->
  Server.upload_single env now rnd (Some f) w
  = (Throw Server.typeNotSupported, w).
Proof.
  intros H. unfold Server.upload_single, bind, lift.
  by rewrite fileFilter_rejects.
Qed.

Lemma upload_single_too_large (env : Env) (now rnd : N)
    (f : Server.IncomingFile) (w : World) :
  Server.in_mimetype f ∈ Server.allowedMimes ->
  (Server.fileSize < Server.in_size f)%N ->
  Server.upload_single env now rnd (Some f) w
  = (Throw (mkError (KMulterError "LIMIT_FILE_SIZE") "File too large"), w).
Proof.
  intros Hm Hsz. unfold Server.upload_single, bind, lift.
  apply fileFilter_accepts in Hm. rewrite Hm.
  apply N.ltb_lt in Hsz. by rewrite Hsz.
Qed.

(** C6: the upload filter accepts a file exactly when its declared MIME
    type is one of the 21 entries of the allow-list of section 6, which is
    the list in the code; a file of any other type never reaches the
    handler: the request is answered 400 with the "File type not
    supported" message, with no call to the bot API and nothing stored. *)
Theorem upload_accepted_iff_allowed (m : string) :
  (Server.fileFilter m = Ok true <-> m ∈ Spec.allowed_types) /\
  length Spec.allowed_types = 21%nat /\
  NoDup Spec.allowed_types /\
  (m ∉ Spec.allowed_types ->
   Server.fileFilter m = Throw Server.typeNotSupported /\
   Str.includes (Js.message Server.typeNotSupported) "type not supported"
   = true /\
   forall env now rnd body original size w,
     Server.post_send_file env now rnd body
       (Some (Server.mkIncoming original m size)) w
     = (Ok tt,
        {| fs := fs w;
           trace := trace w ++
             [ConsoleError "Global error handler:";
              Respond (Res.mkResponse 400 false
                         (Js.message Server.typeNotSupported))] |})).
Proof.
  change Spec.allowed_types with Server.allowedMimes.
  split; [apply fileFilter_accepts|].
  split; [reflexivity|].
  split; [by_evaluation|].
  intros Hm. split; [by apply fileFilter_rejects|].
  split; [reflexivity|].
  intros env now rnd body original size w.
  unfold Server.post_send_file.
  rewrite upload_single_rejected by done.
  apply errorHandler_maps.
Qed.

Lemma upload_accepted_iff_allowed_witness :
  Server.fileFilter "application/x-msdownload"
  = Throw Server.typeNotSupported /\
  responses (trace (snd (Server.post_send_file sample_env 17 5 plain_body
                           (Some exe_part) uploads_only)))
  = [Res.mkResponse 400 false
       "File type not supported. Please upload images, documents, or common media files."].
Proof.
  assert ("application/x-msdownload" ∉ Spec.allowed_types) as Hm.
  { by_evaluation. }
  destruct (upload_accepted_iff_allowed "application/x-msdownload")
    as (_ & _ & _ & H).
  destruct (H Hm) as (Hreject & _ & Hroute).
  split; [exact Hreject|].
  unfold exe_part. rewrite Hroute. reflexivity.
Defined.

(** C7, as amended: a request to [POST /send-file] whose file has an
    allowed MIME type and exceeds 20 MiB is answered 400 with the fixed
    size-limit message by the error-handling middleware: the handler does
    not run, the bot API is not called and nothing is left on disk. *)
Theorem oversized_upload_rejected (env : Env) (now rnd : N)
    (body : Server.FileBody) (f : Server.IncomingFile) (w : World) :
  Server.in_mimetype f ∈ Spec.allowed_types ->
  (Spec.max_upload_size < Server.in_size f)%N ->
  Server.post_send_file env now rnd body (Some f) w
  = (Ok tt,
     {| fs := fs w;
        trace := trace w ++
          [ConsoleError "Global error handler:";
           Respond (Res.mkResponse 400 false
                      "File size exceeds 20 MB limit.")] |}).
Proof.
  intros Hm Hsz. unfold Server.post_send_file.
  rewrite upload_single_too_large by done.
  apply errorHandler_maps.
Qed.

Lemma oversized_upload_rejected_witness :
  Server.post_send_file sample_env 17 5 plain_body (Some huge_video_part)
    uploads_only
  = (Ok tt,
     {| fs := fs uploads_only;
        trace := [ConsoleError "Global error handler:";
                  Respond (Res.mkResponse 400 false
                             "File size exceeds 20 MB limit.")] |}).
Proof.
  apply (oversized_upload_rejected sample_env 17 5 plain_body huge_video_part
           uploads_only).
  - by_evaluation.
  - reflexivity.
Defined.

(** C7, as stated, fails for a file that is too large and of a type that
    is not allowed: multer asks the type filter before it reads the file,
    so the answer is the 400 of the type filter, not the size-limit
    message. *)
Lemma oversized_disallowed_type_message :
  (Spec.max_upload_size < Server.in_size huge_exe_part)%N /\
  responses (trace (snd (Server.post_send_file sample_env 17 5 plain_body
                           (Some huge_exe_part) uploads_only)))
  = [Res.mkResponse 400 false
       "File type not supported. Please upload images, documents, or common media files."]
  /\
  ~ (forall env now rnd body f w,
       (Spec.max_upload_size < Server.in_size f)%N ->
       responses (trace (snd (Server.post_send_file env now rnd body
                                (Some f) w)))
       = responses (trace w)
         ++ [Res.mkResponse 400 false "File size exceeds 20 MB limit."]).
Proof.
  assert (Server.post_send_file sample_env 17 5 plain_body
            (Some huge_exe_part) uploads_only
          = Server.errorHandler Server.typeNotSupported uploads_only) as Hrun.
  { unfold Server.post_send_file.
    by rewrite upload_single_rejected by by_evaluation. }
  split; [reflexivity|].
  split; [by rewrite Hrun, errorHandler_maps|].
  intros H.
  specialize (H sample_env 17%N 5%N plain_body huge_exe_part uploads_only
                eq_refl).
  rewrite Hrun, errorHandler_maps in H. discriminate H.
Qed.

End UploadClaims.

(** ** Claims about the clean-up of uploads *)

Section CleanupClaims.



(** Where it does not: when [name] is truthy and not a string, the handler
    answers 500 and leaves the file system as multer left it, upload
    included; [removeFile] is not called. *)
Lemma send_file_skips_cleanup (env : Env) (body : Server.FileBody)
    (file : option Server.UploadedFile) (w : World) :
  truthy (Server.name body) = true -> is_string (Server.name body) = false ->
  truthy (Server.email body) = true ->
  Spec.configured env ->
  Server.send_file env body file w
  = (Ok tt,
     {| fs := fs w;
        trace := trace w ++
          [ConsoleError "Error in /send-file:";
           Respond (Res.mkResponse 500 false
                      "text.replace is not a function")] |}).
Proof.
  intros Hn Hs He [Ht Hc].
  unfold Server.send_file, try_catch, Server.send_file_try.
  rewrite Hn, He, Ht, Hc. cbn [negb orb].
  unfold bind at 1, lift at 1. rewrite server_sanitize_throws by done.
  unfold Server.send_file_catch, Server.removeIfFilePath, bind,
    Server.get_filePath, Server.liftW, console_error, respond, emit, ret.
  cbn. by rewrite <- app_assoc.
Qed.

(** C2 (where it fails): a request to [POST /send-file] with a file and
    with the field [name] sent twice. Multer stores the file and hands the
    handler an array for [name]; [sanitizeInput] throws on it before
    [filePath] is assigned, so the [catch] block finds [filePath] still
    null and does not call [removeFile]. The response is produced and the
    upload is still on disk. *)
Theorem upload_left_behind :
  let w' := snd (Server.post_send_file sample_env 1700000000000 42
                   array_name_body (Some cv_part) uploads_only) in
  fs w' !! "/srv/app/uploads/1700000000000-42-cv.pdf" = Some RegularFile /\
  unlinked (trace w') = [] /\
  responses (trace w')
  = [Res.mkResponse 500 false "text.replace is not a function"].
Proof. vm_compute. repeat split. Qed.

End CleanupClaims.

(** ** Further properties: the sanitizer *)

Section SanitizerMore.

Lemma count_app (c : ascii) (s t : string) :
  count_char c (s +:+ t) = (count_char c s + count_char c t)%nat.
Proof.
  induction s as [|a s IH]; [done|].
  rewrite append_cons. cbn [count_char]. rewrite IH. lia.
Qed.

Lemma count_absent (c : ascii) (s : string) :
  Str.occurs c s = false -> count_char c s = 0%nat.
Proof.
  induction s as [|a s IH]; [done|]. cbn [Str.occurs count_char].
  intros [-> Hs]%orb_false_elim. by rewrite IH.
Qed.

Lemma string_length_app (s t : string) :
  String.length (s +:+ t) = (String.length s + String.length t)%nat.
Proof.
  induction s as [|a s IH]; [done|].
  rewrite append_cons. cbn [String.length]. by rewrite IH.
Qed.

Lemma escape_length (s : string) :
  String.length (Spec.escape s)
  = (String.length s + 3 * (count_char "<" s + count_char ">" s))%nat.
Proof.
  induction s as [|a s IH]; [done|].
  cbn [Spec.escape count_char String.length]. rewrite string_length_app, IH.
  unfold Spec.escapeChar.
  destruct (Ascii.eqb a "<") eqn:Hlt.
  - apply Ascii.eqb_eq in Hlt as ->. cbn. lia.
  - destruct (Ascii.eqb a ">"); cbn; lia.
Qed.

(** X1: sanitizing is idempotent on strings, in both deployments: the
    ampersand of an inserted entity is not itself escaped, so sanitizing
    a sanitized text changes nothing. *)
Theorem sanitize_twice (s t : string) :
  Server.sanitizeInput (JStr s) = Ok t ->
  Server.sanitizeInput (JStr t) = Ok t /\
  Legacy.sanitizeInput (JStr s) = t /\
  Legacy.sanitizeInput (JStr t) = t.
Proof.
  rewrite !server_sanitize_string, !legacy_sanitize_string.
  intros [= <-]. destruct (escape_clean s) as [H1 H2].
  by rewrite escape_fixes_plain.
Qed.

Lemma sanitize_twice_witness :
  Server.sanitizeInput (JStr "a &lt; b &gt; c") = Ok "a &lt; b &gt; c".
Proof.
  exact (proj1 (sanitize_twice "a < b > c" "a &lt; b &gt; c" eq_refl)).
Defined.

(** X2: the sanitized text is longer than the input by three characters
    for each bracket, hence at most four times as long. *)
Theorem sanitize_length (s : string) :
  exists t,
    Server.sanitizeInput (JStr s) = Ok t /\
    Legacy.sanitizeInput (JStr s) = t /\
    String.length t
    = (String.length s + 3 * (count_char "<" s + count_char ">" s))%nat /\
    (String.length t <= 4 * String.length s)%nat.
Proof.
  exists (Spec.escape s).
  rewrite server_sanitize_string, legacy_sanitize_string, escape_length.
  repeat split.
  assert (count_char "<" s + count_char ">" s <= String.length s)%nat; [|lia].
  clear. induction s as [|a s IH]; [done|].
  cbn [count_char String.length].
  destruct (Ascii.eqb a "<") eqn:Hlt; [|destruct (Ascii.eqb a ">"); lia].
  apply Ascii.eqb_eq in Hlt as ->. cbn. lia.
Qed.

End SanitizerMore.

(** ** Further properties: the text-only endpoint of [server.js] *)

Section SendMessageMore.

Lemma truthy_string (v : JsValue) :
  truthy v = true -> is_string v = true ->
  v = JStr (field_text v) /\ field_text v <> EmptyString.
Proof. destruct v; try done. intros H _. split; [done|]. by destruct s. Qed.

(** Every run of the handler: it returns normally, leaves the file system
    alone, and adds the events of [send_message_events]. *)
Lemma server_send_message_all (env : Env) (body : Req.MessageBody)
    (w : World) :
  Server.send_message env body w
  = (Ok tt,
     {| fs := fs w; trace := trace w ++ send_message_events env body |}).
Proof.
  unfold send_message_events. destruct body as [bn be bm].
  cbn [Req.name Req.email Req.message].
  destruct (negb (truthy bn) || negb (truthy be) || negb (truthy bm))
    eqn:Hmiss.
  { unfold Server.send_message, try_catch.
    cbn [Req.name Req.email Req.message]. by rewrite Hmiss. }
  apply orb_false_elim in Hmiss as [[Hn He]%orb_false_elim Hm].
  apply negb_false_iff in Hn, He, Hm.
  destruct (negb (env_truthy (TELEGRAM_BOT_TOKEN env))
            || negb (env_truthy (TELEGRAM_CHAT_ID env))) eqn:Hcfg.
  { unfold Server.send_message, try_catch.
    cbn [Req.name Req.email Req.message].
    rewrite Hn, He, Hm, Hcfg. cbn [negb orb].
    unfold bind, console_error, respond, emit. cbn [fs trace].
    by rewrite <- app_assoc. }
  apply orb_false_elim in Hcfg as [Ht Hc]. apply negb_false_iff in Ht, Hc.
  destruct (is_string bn) eqn:Sn; cbn [andb].
  2:{ unfold Server.send_message, try_catch.
      cbn [Req.name Req.email Req.message].
      rewrite Hn, He, Hm, Ht, Hc. cbn [negb orb].
      unfold bind at 1, lift at 1. rewrite server_sanitize_throws by done.
      unfold bind, console_error, respond, emit. cbn [fs trace].
      by rewrite <- app_assoc. }
  destruct (truthy_string bn Hn Sn) as [En Nn].
  destruct (is_string be) eqn:Se; cbn [andb].
  2:{ unfold Server.send_message, try_catch.
      cbn [Req.name Req.email Req.message].
      rewrite Hn, He, Hm, Ht, Hc. cbn [negb orb].
      unfold bind at 1, lift at 1. rewrite En, server_sanitize_string.
      unfold bind at 1, lift at 1. rewrite server_sanitize_throws by done.
      unfold bind, console_error, respond, emit. cbn [fs trace].
      by rewrite <- app_assoc. }
  destruct (truthy_string be He Se) as [Ee Ne].
  destruct (is_string bm) eqn:Sm.
  2:{ unfold Server.send_message, try_catch.
      cbn [Req.name Req.email Req.message].
      rewrite Hn, He, Hm, Ht, Hc. cbn [negb orb].
      unfold bind at 1, lift at 1. rewrite En, server_sanitize_string.
      unfold bind at 1, lift at 1. rewrite Ee, server_sanitize_string.
      unfold bind at 1, lift at 1. rewrite server_sanitize_throws by done.
      unfold bind, console_error, respond, emit. cbn [fs trace].
      by rewrite <- app_assoc. }
  destruct (truthy_string bm Hm Sm) as [Em Nm].
  rewrite En, Ee, Em at 1.
  rewrite server_send_message_run by done.
  cbv zeta. by rewrite <- app_assoc.
Qed.

Lemma escape_no_brackets (s : string) :
  count_char "<" (Spec.escape s) = 0%nat /\
  count_char ">" (Spec.escape s) = 0%nat.
Proof.
  destruct (escape_clean s) as [H1 H2]. by rewrite !count_absent.
Qed.

Lemma legacy_sanitize_no_brackets (v : JsValue) :
  count_char "<" (Legacy.sanitizeInput v) = 0%nat /\
  count_char ">" (Legacy.sanitizeInput v) = 0%nat.
Proof.
  destruct v; try done. rewrite legacy_sanitize_string.
  apply escape_no_brackets.
Qed.

Lemma server_text_brackets (n e m : string) :
  count_char "<" (server_text n e m) = 8%nat /\
  count_char ">" (server_text n e m) = 8%nat.
Proof.
  unfold server_text. rewrite !count_app.
  destruct (escape_no_brackets n) as [-> ->].
  destruct (escape_no_brackets e) as [-> ->].
  destruct (escape_no_brackets m) as [-> ->]. done.
Qed.

Lemma legacy_text_brackets (n e m : JsValue) :
  count_char "<" (legacy_text (Legacy.sanitizeInput n)
                    (Legacy.sanitizeInput e) (Legacy.sanitizeInput m))
  = 8%nat /\
  count_char ">" (legacy_text (Legacy.sanitizeInput n)
                    (Legacy.sanitizeInput e) (Legacy.sanitizeInput m))
  = 8%nat.
Proof.
  unfold legacy_text. rewrite !count_app.
  destruct (legacy_sanitize_no_brackets n) as [-> ->].
  destruct (legacy_sanitize_no_brackets e) as [-> ->].
  destruct (legacy_sanitize_no_brackets m) as [-> ->]. done.
Qed.

(** X3: no request can add markup to the relayed message. Whatever the
    three fields hold, every call either [/send-message] handler makes
    carries a text with exactly the eight opening and eight closing
    brackets of the template's four bold labels. *)
Theorem relayed_text_has_template_markup_only (env : Env)
    (body : Req.MessageBody) (w : World) :
  let balanced (c : OutboundCall) :=
    count_char "<" (call_text c) = 8%nat /\
    count_char ">" (call_text c) = 8%nat in
  (exists calls,
     outbound (trace (snd (Server.send_message env body w)))
     = outbound (trace w) ++ calls /\ Forall balanced calls) /\
  (exists calls,
     outbound (trace (snd (Legacy.send_message env body w)))
     = outbound (trace w) ++ calls /\ Forall balanced calls).
Proof.
  intros balanced. split.
  - rewrite server_send_message_all. cbn [snd trace]. rewrite outbound_app.
    eexists. split; [reflexivity|].
    unfold send_message_events.
    repeat match goal with
           | |- context [if ?b then _ else _] => destruct b
           end; cbn; try by constructor.
    rewrite server_after_outbound.
    constructor; [exact (server_text_brackets _ _ _) | constructor].
  - rewrite legacy_send_message_run. cbn [snd trace].
    rewrite !outbound_app, legacy_after_outbound, app_nil_r.
    eexists. split; [reflexivity|].
    constructor; [exact (legacy_text_brackets _ _ _) | constructor].
Qed.

(** X4: [POST /send-message] of [server.js] answers every request exactly
    once and never throws; it leaves the file system alone, calls the bot
    API at most once, and its response is one of five fixed ones, so that
    nothing of the request, of the secrets or of an error's message
    reaches the client. *)
Theorem send_message_answers_once (env : Env) (body : Req.MessageBody)
    (w : World) :
  fst (Server.send_message env body w) = Ok tt /\
  fs (snd (Server.send_message env body w)) = fs w /\
  (exists r,
     responses (trace (snd (Server.send_message env body w)))
     = responses (trace w) ++ [r] /\ r ∈ send_message_replies) /\
  (length (outbound (trace (snd (Server.send_message env body w))))
   <= length (outbound (trace w)) + 1)%nat.
Proof.
  rewrite server_send_message_all. cbn [fst snd fs trace].
  rewrite responses_app, outbound_app, length_app.
  split; [done|]. split; [done|].
  unfold send_message_events, send_message_replies.
  repeat match goal with
         | |- context [if ?b then _ else _] => destruct b
         end; cbn [responses outbound omap length];
    try (split; [eexists; split; [reflexivity|set_solver] | cbn; lia]).
  destruct (telegram env _) as [err|[|]]; cbn;
    (split; [eexists; split; [reflexivity|set_solver] | lia]).
Qed.

(** X5: with the three fields present but a secret missing or empty,
    [POST /send-message] of [server.js] answers 500 with the one
    configuration message, whichever secret it is, and does not call the
    bot API; the fields are not even sanitized. *)
Theorem send_message_needs_secrets (env : Env) (body : Req.MessageBody)
    (w : World) :
  truthy (Req.name body) = true -> truthy (Req.email body) = true ->
  truthy (Req.message body) = true ->
  env_truthy (TELEGRAM_BOT_TOKEN env) = false \/
  env_truthy (TELEGRAM_CHAT_ID env) = false ->
  responses (trace (snd (Server.send_message env body w)))
  = responses (trace w)
    ++ [Res.mkResponse 500 false
          "Server configuration error. Please contact administrator."] /\
  outbound (trace (snd (Server.send_message env body w)))
  = outbound (trace w).
Proof.
  intros Hn He Hm Hcfg.
  rewrite server_send_message_all. cbn [snd trace].
  rewrite responses_app, outbound_app.
  unfold send_message_events. rewrite Hn, He, Hm. cbn [negb orb].
  assert (negb (env_truthy (TELEGRAM_BOT_TOKEN env))
          || negb (env_truthy (TELEGRAM_CHAT_ID env)) = true) as ->.
  { destruct Hcfg as [-> | ->]; [done|]. apply orb_true_r. }
  cbn. by rewrite app_nil_r.
Qed.

Lemma send_message_needs_secrets_witness :
  responses
    (trace (snd (Server.send_message
                   (mkEnv "/srv/app" "/srv/app" (Some "123:abc") None
                      (fun _ => Resolves true))
                   (Req.mkMessageBody (JNum 7) (JStr "a@b.c") (JStr "hi"))
                   empty_world)))
  = [Res.mkResponse 500 false
       "Server configuration error. Please contact administrator."].
Proof.
  exact (proj1 (send_message_needs_secrets
                  (mkEnv "/srv/app" "/srv/app" (Some "123:abc") None
                     (fun _ => Resolves true))
                  (Req.mkMessageBody (JNum 7) (JStr "a@b.c") (JStr "hi"))
                  empty_world eq_refl eq_refl eq_refl
                  (or_intror eq_refl))).
Defined.

End SendMessageMore.

(** ** Further properties: where uploads are stored *)

Section Storage.

Lemma proper_neq (s : string) :
  proper s ->
  String.eqb s "" = false /\ String.eqb s "." = false /\
  String.eqb s ".." = false.
Proof.
  intros [[H1 _] [H2 H3]]. by rewrite !String.eqb_neq.
Qed.

Lemma proper_segment (l : list string) : Forall proper l -> Forall segment l.
Proof. intros H. eapply Forall_impl; [exact H|]. by intros s [? _]. Qed.

Lemma proper_slashfree (l : list string) : Forall proper l -> Forall slashfree l.
Proof. intros H. eapply Forall_impl; [exact H|]. by intros s [[_ ?] _]. Qed.

(** Without [allowAboveRoot] the result holds no [".."]. *)
Lemma normalizeGo_proper (segs acc : list string) :
  Forall proper acc -> Forall slashfree segs ->
  Forall proper (Path.normalizeGo false acc segs).
Proof.
  revert acc. induction segs as [|s segs IH]; intros acc Hacc Hsegs.
  - by apply Forall_rev.
  - inversion Hsegs as [|? ? Hs Hsegs']; subst. cbn [Path.normalizeGo].
    destruct (String.eqb s "") eqn:He; [by apply IH|].
    destruct (String.eqb s ".") eqn:Hd; [by apply IH|]. cbn [orb].
    destruct (String.eqb s "..") eqn:Hdd.
    + destruct acc as [|top acc']; [by apply IH|].
      destruct (String.eqb top ".."); apply IH; try done.
      by inversion Hacc.
    + apply IH; [|done]. constructor; [|done].
      apply String.eqb_neq in He, Hd, Hdd. done.
Qed.

(** Proper segments are pushed one after the other. *)
Lemma normalizeGo_keeps (allow : bool) (l acc rest : list string) :
  Forall proper l ->
  Path.normalizeGo allow acc (l ++ rest)
  = Path.normalizeGo allow (rev l ++ acc) rest.
Proof.
  revert acc. induction l as [|s l IH]; intros acc Hl; [done|].
  inversion Hl as [|? ? Hs Hl']; subst.
  destruct (proper_neq s Hs) as (H1 & H2 & H3).
  cbn [app Path.normalizeGo]. rewrite H1, H2, H3. cbn [orb].
  rewrite IH by done. cbn [rev]. by rewrite <- app_assoc.
Qed.

Lemma normalizeGo_all_proper (allow : bool) (l : list string) :
  Forall proper l -> Path.normalizeGo allow [] l = l.
Proof.
  intros Hl. rewrite <- (app_nil_r l) at 1.
  rewrite normalizeGo_keeps by done. cbn [Path.normalizeGo].
  by rewrite app_nil_r, rev_involutive.
Qed.

Lemma split_enc (l : list string) (t : string) :
  Forall slashfree l -> Path.split (enc l +:+ t) = l ++ Path.split t.
Proof.
  induction l as [|s l IH]; intros Hl; [done|].
  inversion Hl as [|? ? Hs Hl']; subst.
  change (enc (s :: l)) with (s +:+ "/" +:+ enc l).
  rewrite !append_assoc, split_slashfree_app by done.
  by rewrite IH.
Qed.

Lemma split_slash (t : string) :
  Path.split ("/" +:+ t) = EmptyString :: Path.split t.
Proof. reflexivity. Qed.

(** The segments between the separators of a normalised absolute path,
    followed by [tail]. *)
Lemma split_normalized (l : list string) (tail : string) :
  Forall proper l -> slashfree tail ->
  Path.normalizeGo false []
    (Path.split (("/" +:+ Path.joinSegs l) +:+ "/" +:+ tail))
  = Path.normalizeGo false (rev l) [tail].
Proof.
  intros Hl Ht. rewrite append_assoc, split_slash.
  destruct l as [|s l].
  - change (Path.joinSegs []) with EmptyString.
    rewrite append_empty_l, split_slash, split_slashfree_id by done.
    reflexivity.
  - rewrite <- append_assoc, joinSegs_enc by done.
    rewrite split_enc by (by apply proper_slashfree).
    rewrite split_slashfree_id by done.
    change (Path.normalizeGo false [] (EmptyString :: (s :: l) ++ [tail]))
      with (Path.normalizeGo false [] ((s :: l) ++ [tail])).
    rewrite normalizeGo_keeps by done. by rewrite app_nil_r.
Qed.

(** [path.resolve] leaves a normalised absolute path as it is. *)
Lemma resolve_normalized (cwd : string) (l : list string) :
  Forall proper l ->
  Path.resolve cwd ("/" +:+ Path.joinSegs l) = "/" +:+ Path.joinSegs l.
Proof.
  intros Hl. unfold Path.resolve, Path.resolveRaw.
  change (String.eqb ("/" +:+ Path.joinSegs l) "") with false.
  change (Path.isAbsolute ("/" +:+ Path.joinSegs l)) with true.
  cbv iota beta. cbn [snd fst negb].
  unfold Path.normalizeString, Path.normalizeSegs.
  rewrite split_normalized by done.
  cbn [Path.normalizeGo]. change (String.eqb "" "") with true. cbn [orb].
  cbn [Path.normalizeGo]. by rewrite rev_involutive.
Qed.

Lemma joinSegs_snoc (l : list string) (s : string) :
  l <> [] -> Path.joinSegs (l ++ [s]) = Path.joinSegs l +:+ "/" +:+ s.
Proof.
  induction l as [|a l IH]; [done|]. intros _.
  destruct l as [|b l]; [done|].
  change (Path.joinSegs ((a :: b :: l) ++ [s]))
    with (a +:+ "/" +:+ Path.joinSegs ((b :: l) ++ [s])).
  rewrite IH by done.
  change (Path.joinSegs (a :: b :: l))
    with (a +:+ "/" +:+ Path.joinSegs (b :: l)).
  by rewrite !append_assoc.
Qed.

Lemma joinSegs_nonempty (l : list string) :
  Forall segment l -> l <> [] -> Path.joinSegs l <> EmptyString.
Proof.
  destruct l as [|s l]; [done|]. intros Hl _.
  inversion Hl as [|? ? [Hs _] _]; subst.
  destruct l; [done|]. cbn [Path.joinSegs]. by destruct s.
Qed.

(** [path.join] of a normalised absolute directory and one proper
    segment appends the segment. *)
Lemma join_normalized (l : list string) (name : string) :
  Forall proper l -> proper name ->
  Path.join ("/" +:+ Path.joinSegs l) name
  = "/" +:+ Path.joinSegs (l ++ [name]).
Proof.
  intros Hl Hname. pose proof Hname as [[Hne Hsf] _].
  unfold Path.join.
  change (String.eqb ("/" +:+ Path.joinSegs l) "") with false.
  apply String.eqb_neq in Hne as Hne'. rewrite Hne'. cbv iota.
  set (joined := ("/" +:+ Path.joinSegs l) +:+ "/" +:+ name).
  assert (String.eqb joined "" = false) as -> by reflexivity.
  unfold Path.normalize.
  assert (String.eqb joined "" = false) as -> by reflexivity.
  assert (Path.isAbsolute joined = true) as -> by reflexivity.
  assert (Str.endsWith joined "/" = false) as ->.
  { unfold joined. rewrite <- append_assoc, endsWith_app by done.
    by apply endsWith_slashfree. }
  cbn [negb]. unfold Path.normalizeString, Path.normalizeSegs, joined.
  rewrite split_normalized by done. cbn [Path.normalizeGo].
  destruct (proper_neq name Hname) as (-> & -> & ->). cbn [orb].
  cbn [Path.normalizeGo rev]. rewrite rev_involutive.
  assert (Path.joinSegs (l ++ [name]) <> EmptyString) as Hq.
  { apply joinSegs_nonempty; [|by destruct l].
    apply Forall_app. split; [by apply proper_segment|].
    constructor; [by destruct Hname | constructor]. }
  apply String.eqb_neq in Hq. by rewrite Hq.
Qed.

Lemma split_last (s t : string) :
  slashfree t ->
  exists h pre, Path.split (s +:+ "/" +:+ t) = (h :: pre) ++ [t].
Proof.
  intros Ht. induction s as [|c s (h & pre & IH)].
  - exists EmptyString, []. rewrite append_empty_l, split_slash.
    by rewrite split_slashfree_id.
  - rewrite append_cons. cbn [Path.split]. rewrite IH.
    destruct (Ascii.eqb c Path.slash).
    + by exists EmptyString, (h :: pre).
    + by exists (String c h), pre.
Qed.

(** Whatever precedes it, a proper last segment is the last segment of
    the result. *)
Lemma normalizeGo_last (allow : bool) (pre acc : list string) (t : string) :
  proper t ->
  exists kept, Path.normalizeGo allow acc (pre ++ [t]) = kept ++ [t].
Proof.
  intros Ht. destruct (proper_neq t Ht) as (H1 & H2 & H3).
  revert acc. induction pre as [|s pre IH]; intros acc.
  - exists (rev acc). cbn [app Path.normalizeGo]. by rewrite H1, H2, H3.
  - cbn [app Path.normalizeGo].
    destruct (String.eqb s "" || String.eqb s "."); [apply IH|].
    destruct (String.eqb s ".."); [|apply IH].
    destruct acc as [|top acc']; [apply IH|].
    destruct (String.eqb top ".."); apply IH.
Qed.

(** [uploadsDir] is a normalised absolute path, not the root, when
    [__dirname] is absolute. *)
Lemma uploadsDir_shape (env : Env) :
  Path.isAbsolute (dirname env) = true ->
  exists l, Forall proper l /\ l <> [] /\
            Server.uploadsDir env = "/" +:+ Path.joinSegs l.
Proof.
  intros Habs. unfold Server.uploadsDir, Path.join.
  destruct (dirname env) as [|c d] eqn:Hd; [done|].
  change (String.eqb (String c d) "") with false.
  change (String.eqb "uploads" "") with false. cbv iota.
  set (joined := String c d +:+ "/" +:+ "uploads").
  assert (String.eqb joined "" = false) as -> by reflexivity.
  unfold Path.normalize.
  assert (String.eqb joined "" = false) as -> by reflexivity.
  assert (Path.isAbsolute joined = true) as -> by exact Habs.
  assert (Str.endsWith joined "/" = false) as ->.
  { unfold joined. by rewrite endsWith_app. }
  cbn [negb]. unfold Path.normalizeString, Path.normalizeSegs.
  set (l := Path.normalizeGo false [] (Path.split joined)).
  assert (Forall proper l) as Hl.
  { apply normalizeGo_proper; [constructor | apply split_slashfree]. }
  assert (l <> []) as Hne.
  { unfold l, joined.
    destruct (split_last (String c d) "uploads") as (h & pre & ->); [done|].
    destruct (normalizeGo_last false (h :: pre) [] "uploads") as [kept ->].
    - by repeat split.
    - by destruct kept. }
  exists l. split; [done|]. split; [done|].
  apply (joinSegs_nonempty l (proper_segment l Hl)) in Hne.
  apply String.eqb_neq in Hne. by rewrite Hne.
Qed.

Lemma digits_slashfree (d : Decimal.uint) :
  slashfree (NilEmpty.string_of_uint d).
Proof.
  induction d; cbn [NilEmpty.string_of_uint]; [done|..];
    by apply slashfree_cons.
Qed.

Lemma decimal_slashfree (n : N) : slashfree (Str.decimal n).
Proof.
  unfold Str.decimal, NilZero.string_of_uint.
  destruct (N.to_uint n) eqn:E; try done; rewrite <- E;
    apply digits_slashfree.
Qed.

(** A number is printed with a digit first. *)
Lemma decimal_head (n : N) :
  exists c rest, Str.decimal n = String c rest /\
                 Ascii.is_nat c <> None.
Proof.
  unfold Str.decimal, NilZero.string_of_uint.
  destruct (N.to_uint n); cbn [NilEmpty.string_of_uint];
    by eexists _, _.
Qed.

Lemma slashfree_app (s t : string) :
  slashfree s -> slashfree t -> slashfree (s +:+ t).
Proof. unfold slashfree. rewrite occurs_app. by intros -> ->. Qed.

(** The name a stored upload gets is one proper segment whenever the
    original name holds no separator. *)
Lemma filename_proper (now rnd : N) (original : string) :
  slashfree original -> proper (Server.filename now rnd original).
Proof.
  intros Ho. unfold Server.filename.
  destruct (decimal_head now) as (c & rest & Hc & Hdigit).
  pose proof (decimal_slashfree now) as Hnow.
  pose proof (decimal_slashfree rnd) as Hrnd.
  assert (slashfree ((Str.decimal now +:+ "-" +:+ Str.decimal rnd)
                     +:+ "-" +:+ original)) as Hsf.
  { repeat apply slashfree_app; done. }
  rewrite Hc in *. rewrite !append_cons in *.
  split; [split; [done|done]|].
  split; intros [= -> _]; by apply Hdigit.
Qed.

(** The kernel's walk against [path.resolve]: where the walk arrives, it
    arrives at the resolved path; and along a path in resolved form it
    arrives whatever the disk holds. *)
Lemma split_app (s t : string) :
  Path.split (s +:+ "/" +:+ t) = Path.split s ++ Path.split t.
Proof.
  induction s as [|c s IH].
  - rewrite append_empty_l, slash_app. simpl. done.
  - rewrite append_cons. simpl. rewrite IH.
    destruct (Ascii.eqb c Path.slash); [done|].
    pose proof (split_not_nil s). by destruct (Path.split s).
Qed.

Lemma walk_normalize (disk : gmap string Node) (l rest acc r : list string) :
  Forall (λ s, s <> "..") acc ->
  walk disk acc l = Some r ->
  Forall (λ s, s <> "..") r /\
  Path.normalizeGo false acc (l ++ rest) = Path.normalizeGo false r rest.
Proof.
  revert acc. induction l as [|c l IH]; intros acc Hacc Hw.
  - injection Hw as <-. done.
  - cbn [walk] in Hw. cbn [app Path.normalizeGo].
    destruct (String.eqb c "" || String.eqb c ".").
    + destruct (isDirectory disk acc); [by apply IH | done].
    + destruct (String.eqb c "..") eqn:Hc.
      * destruct (isDirectory disk acc); [|done].
        destruct acc as [|top acc']; [by apply IH|].
        inversion Hacc as [|? ? Htop Hacc']; subst.
        apply String.eqb_neq in Htop. rewrite Htop. by apply IH.
      * apply IH; [|done]. constructor; [by apply String.eqb_neq | done].
Qed.

Lemma stat_resolve (env : Env) (disk : gmap string Node) (p key : string)
    (n : Node) :
  Path.isAbsolute (cwd env) = true ->
  stat env disk p = Some (key, n) ->
  key = Path.resolve (cwd env) p /\ disk !! key = Some n.
Proof.
  intros Habs. unfold stat.
  destruct (String.eqb p "") eqn:Hp; [done|].
  destruct (walk disk [] _) as [at_|] eqn:Hw; [|done].
  cbv zeta.
  destruct (disk !! _) as [node|] eqn:Hk; [|done].
  intros [= <- <-]. split; [|done].
  assert (String.eqb (cwd env) "" = false) as Hc by (by destruct (cwd env)).
  unfold Path.resolve, Path.resolveRaw. rewrite Hp. cbn [snd fst].
  destruct (Path.isAbsolute p) eqn:Hpa.
  - cbn [negb]. unfold Path.normalizeString, Path.normalizeSegs.
    rewrite split_app.
    by destruct (walk_normalize disk _ (Path.split "") [] at_
                   (Forall_nil_2 _) Hw) as [_ ->].
  - rewrite Hc, Habs. cbn [negb fst].
    unfold Path.normalizeString, Path.normalizeSegs.
    rewrite <- (append_assoc "/" p), <- (append_assoc (cwd env)).
    rewrite split_app.
    by destruct (walk_normalize disk _ (Path.split "") [] at_
                   (Forall_nil_2 _) Hw) as [_ ->].
Qed.

Lemma walk_proper (disk : gmap string Node) (l acc : list string) :
  Forall proper l -> walk disk acc l = Some (rev l ++ acc).
Proof.
  revert acc. induction l as [|s l IH]; intros acc Hl; [done|].
  inversion Hl as [|? ? Hs Hl']; subst.
  destruct (proper_neq s Hs) as (H1 & H2 & H3).
  cbn [walk rev]. rewrite H1, H2, H3. cbn [orb].
  rewrite IH by done. by rewrite <- app_assoc.
Qed.

Lemma stat_normalized (env : Env) (disk : gmap string Node) (l : list string) :
  Forall proper l ->
  stat env disk ("/" +:+ Path.joinSegs l)
  = match disk !! ("/" +:+ Path.joinSegs l) with
    | Some n => Some ("/" +:+ Path.joinSegs l, n)
    | None => None
    end.
Proof.
  intros Hl. unfold stat. rewrite slash_app.
  change (String.eqb (String Path.slash (Path.joinSegs l)) "") with false.
  change (Path.isAbsolute (String Path.slash (Path.joinSegs l))) with true.
  cbv iota.
  change (Path.split (String Path.slash (Path.joinSegs l)))
    with ("" :: Path.split (Path.joinSegs l)).
  cbn [walk]. change (String.eqb "" "" || String.eqb "" ".") with true.
  cbv iota. cbn [isDirectory].
  destruct l as [|s l'].
  - reflexivity.
  - rewrite split_joinSegs by (by apply proper_slashfree || done).
    rewrite walk_proper by done.
    by rewrite app_nil_r, rev_involutive.
Qed.

Lemma upload_single_stores (env : Env) (now rnd : N)
    (part : Server.IncomingFile) (file : Server.UploadedFile) (w w' : World) :
  Path.isAbsolute (dirname env) = true ->
  Path.isAbsolute (cwd env) = true ->
  slashfree (Server.in_originalname part) ->
  Server.upload_single env now rnd (Some part) w = (Ok (Some file), w') ->
  Server.path file
  = Server.uploadsDir env +:+ "/"
    +:+ Server.filename now rnd (Server.in_originalname part) /\
  Path.resolve (cwd env) (Server.path file) = Server.path file /\
  Server.insideUploads env (Server.path file) = true /\
  fs w' = <[Server.path file := RegularFile]> (fs w) /\
  trace w' = trace w /\
  (forall disk,
     stat env disk (Server.path file)
     = match disk !! Server.path file with
       | Some n => Some (Server.path file, n)
       | None => None
       end).
Proof.
  intros Hdir Hcwd Ho Hup.
  destruct (uploadsDir_shape env Hdir) as (l & Hl & Hne & Hu).
  pose proof (filename_proper now rnd _ Ho) as Hfn.
  set (fn := Server.filename now rnd (Server.in_originalname part)) in *.
  assert (Path.join (Server.uploadsDir env) fn
          = "/" +:+ Path.joinSegs (l ++ [fn])) as Hjoin.
  { rewrite Hu. by apply join_normalized. }
  assert (Forall proper (l ++ [fn])) as Hall.
  { apply Forall_app. split; [done|]. by constructor. }
  unfold Server.upload_single, bind, lift in Hup.
  destruct (Server.fileFilter _) as [b|e]; [|discriminate Hup].
  destruct (_ <? _)%N; [discriminate Hup|].
  fold fn in Hup. rewrite Hjoin in Hup.
  rewrite resolve_normalized in Hup by done.
  injection Hup as <- <-. cbn [Server.path fs trace].
  split.
  { rewrite Hu, joinSegs_snoc by done. by rewrite !append_assoc. }
  split; [by apply resolve_normalized|].
  split; [|split; [done|split; [done|]]; intros disk; by apply stat_normalized].
  apply insideUploads_within; [done|]. unfold Spec.within.
  rewrite Hu, !resolve_normalized by done.
  rewrite !components_absolute by (by apply proper_segment).
  by apply prefix_app_r.
Qed.

(** X6: multer stores an accepted upload directly in the uploads
    directory, under the generated name, and the path guard accepts that
    path; this needs only that the original name holds no separator (the
    form parser passes the base name of what the client sent). *)
Theorem upload_is_stored_inside (env : Env) (now rnd : N)
    (part : Server.IncomingFile) (file : Server.UploadedFile) (w w' : World) :
  Path.isAbsolute (dirname env) = true ->
  Path.isAbsolute (cwd env) = true ->
  slashfree (Server.in_originalname part) ->
  Server.upload_single env now rnd (Some part) w = (Ok (Some file), w') ->
  Server.path file
  = Server.uploadsDir env +:+ "/"
    +:+ Server.filename now rnd (Server.in_originalname part) /\
  Path.resolve (cwd env) (Server.path file) = Server.path file /\
  Server.insideUploads env (Server.path file) = true /\
  fs w' = <[Server.path file := RegularFile]> (fs w) /\
  trace w' = trace w.
Proof.
  intros Hdir Hcwd Ho Hup.
  destruct (upload_single_stores env now rnd part file w w' Hdir Hcwd Ho Hup)
    as (H1 & H2 & H3 & H4 & H5 & _).
  repeat split; assumption.
Qed.

End Storage.

(** ** Further properties: the upload endpoint *)

Section SendFileMore.

(** Every run of the [/send-file] handler, whatever the form, the file,
    the secrets, the state of the disk and the behaviour of the bot API. *)
Lemma sanitized_no_brackets (v : JsValue) (t : string) :
  Server.sanitizeInput v = Ok t ->
  count_char "<" t = 0%nat /\ count_char ">" t = 0%nat.
Proof.
  unfold Server.sanitizeInput. destruct (negb (truthy v)).
  - by intros [= <-].
  - destruct v; try done. rewrite two_passes_escape. intros [= <-].
    apply escape_no_brackets.
Qed.

Ltac count_brackets :=
  unfold call_text; cbn [payload]; rewrite ?count_app;
  repeat match goal with
         | H : Server.sanitizeInput _ = Ok ?t |- _ =>
             let H1 := fresh in
             let H2 := fresh in
             destruct (sanitized_no_brackets _ _ H) as [H1 H2];
             rewrite ?H1, ?H2; clear H H1 H2
         end;
  vm_compute; auto.

Lemma send_file_summary (env : Env) (body : Server.FileBody)
    (file : option Server.UploadedFile) (w : World) :
  exists F evs r,
    Server.send_file env body file w
    = (Ok tt, {| fs := F; trace := trace w ++ evs |}) /\
    responses evs = [r] /\
    (length (outbound evs) <= 1)%nat /\
    Forall (expected_call env file) (outbound evs) /\
    (F = fs w \/
     exists f key, file = Some f /\
       Server.insideUploads env (Server.path f) = true /\
       stat env (fs w) (Server.path f) = Some (key, RegularFile) /\
       F = delete key (fs w)) /\
    (streamed evs = [] \/
     exists f, file = Some f /\
       Server.insideUploads env (Server.path f) = true /\
       streamed evs = [Server.path f]).
Proof.
  run_code. repeat run_step.
  all: try match goal with
           | H : str_nonempty (_ +:+ _) = false |- _ =>
               vm_compute in H; discriminate H
           | H : str_nonempty (if ?b then _ else _) = false |- _ =>
               destruct b; vm_compute in H; discriminate H
           end.
  all: eexists _, _, _; rewrite <- ?app_assoc.
  all: split; [reflexivity|]; split; [reflexivity|].
  all: split; [cbn; lia|].
  all: split;
    [ unfold outbound; cbn [omap list_omap app];
      first [ by constructor
            | constructor; [|by constructor];
              split; [eexists; reflexivity | split; count_brackets] ]
    | ].
  all: split;
    [ first [ by left | right; eexists _, _; by repeat split ]
    | first [ by left | right; eexists; by repeat split ] ].
Qed.

Lemma upload_single_cases (env : Env) (now rnd : N)
    (part : option Server.IncomingFile) (w : World) :
  (exists e, Server.upload_single env now rnd part w = (Throw e, w)) \/
  (exists file w',
     Server.upload_single env now rnd part w = (Ok file, w') /\
     trace w' = trace w).
Proof.
  unfold Server.upload_single. destruct part as [f|]; [|right; by eexists _, _].
  unfold bind, lift.
  destruct (Server.fileFilter _); [|left; by eexists].
  destruct (_ <? _)%N; [left; by eexists|].
  right. by eexists _, _.
Qed.

(** X7: [POST /send-file] answers every request exactly once and never
    throws past the route, whatever the form fields, the file part, the
    state of the disk and the behaviour of the bot API; it calls the bot
    API at most once. *)
Theorem send_file_route_answers_once (env : Env) (now rnd : N)
    (body : Server.FileBody) (part : option Server.IncomingFile) (w : World) :
  fst (Server.post_send_file env now rnd body part w) = Ok tt /\
  (exists r,
     responses (trace (snd (Server.post_send_file env now rnd body part w)))
     = responses (trace w) ++ [r]) /\
  (length (outbound (trace (snd (Server.post_send_file env now rnd body part
                                   w))))
   <= length (outbound (trace w)) + 1)%nat.
Proof.
  unfold Server.post_send_file.
  destruct (upload_single_cases env now rnd part w)
    as [[e ->] | (file & w' & -> & Htr)].
  - rewrite errorHandler_maps. cbn [fst snd trace].
    rewrite responses_app, outbound_app, length_app. cbn.
    split; [done|]. split; [by eexists | lia].
  - destruct (send_file_summary env body file w')
      as (F & evs & r & -> & Hr & Ho & _).
    cbn [fst snd trace]. rewrite Htr, responses_app, outbound_app, length_app, Hr.
    split; [done|]. split; [by eexists | lia].
Qed.

(** X8: the calls of [POST /send-file]. A request with a file leads to at
    most one call, to [sendPhoto] with the field [photo] when the declared
    type starts with [image/] and to [sendDocument] with the field
    [document] otherwise, streaming the stored file under its original
    name; a request without a file leads to at most one [sendMessage].
    The caption or text carries the brackets of the template's three or
    four bold labels and no others, whatever the form fields hold. *)
Theorem send_file_calls (env : Env) (body : Server.FileBody)
    (file : option Server.UploadedFile) (w : World) :
  exists calls,
    outbound (trace (snd (Server.send_file env body file w)))
    = outbound (trace w) ++ calls /\
    (length calls <= 1)%nat /\
    Forall (expected_call env file) calls.
Proof.
  destruct (send_file_summary env body file w)
    as (F & evs & r & -> & _ & Hlen & Hcalls & _).
  cbn [snd trace]. rewrite outbound_app. by eexists.
Qed.

(** X9: the [/send-file] handler touches the disk only at the path of
    the request's file, and only if that path lies within the uploads
    directory: every other entry of the file system is as before, the
    file is removed or left alone, never replaced, and no other path is
    opened for reading. *)
Theorem send_file_touches_only_its_upload (env : Env)
    (body : Server.FileBody) (file : option Server.UploadedFile) (w : World)
    (q : string) :
  Path.isAbsolute (cwd env) = true ->
  (fs (snd (Server.send_file env body file w)) !! q = fs w !! q \/
   exists f, file = Some f /\ q = Path.resolve (cwd env) (Server.path f) /\
             Spec.within env (Server.path f) /\
             fs w !! q = Some RegularFile /\
             fs (snd (Server.send_file env body file w)) !! q = None) /\
  (exists paths,
     streamed (trace (snd (Server.send_file env body file w)))
     = streamed (trace w) ++ paths /\
     Forall (λ p, exists f, file = Some f /\ p = Server.path f /\
                            Spec.within env p) paths).
Proof.
  intros Habs.
  destruct (send_file_summary env body file w)
    as (F & evs & r & -> & _ & _ & _ & HF & Hs).
  cbn [snd fs trace]. split.
  - destruct HF as [-> | (f & key & -> & Hin & Hk & ->)]; [by left|].
    apply stat_resolve in Hk as [-> Hk]; [|done].
    destruct (decide (q = Path.resolve (cwd env) (Server.path f))) as [->|Hq].
    + right. exists f. apply insideUploads_within in Hin; [|done].
      repeat split; try done. apply lookup_delete_eq.
    + left. by apply lookup_delete_ne.
  - rewrite streamed_app. eexists. split; [reflexivity|].
    destruct Hs as [-> | (f & -> & Hin & ->)]; [constructor|].
    apply insideUploads_within in Hin; [|done].
    repeat constructor. by exists f.
Qed.

Lemma send_file_touches_only_its_upload_witness :
  fs (snd (Server.send_file sample_env plain_body (Some outside_file)
             uploads_only)) !! "/srv/app/.env"
  = fs uploads_only !! "/srv/app/.env".
Proof.
  destruct (send_file_touches_only_its_upload sample_env plain_body
              (Some outside_file) uploads_only "/srv/app/.env" eq_refl)
    as [[H | (f & _ & _ & _ & H & _)] _]; [exact H|].
  vm_compute in H. discriminate H.
Defined.

End SendFileMore.

(** ** Further properties: the guarded file operations *)

Section GuardMore.

(** X10: [removeFile] never throws and changes at most one entry of the
    file system: the regular file at the resolved path, which it removes,
    and only when that path lies within the uploads directory. It never
    creates or replaces anything. *)
Theorem removeFile_touches_one_entry (env : Env) (p : string) (w : World)
    (q : string) :
  Path.isAbsolute (cwd env) = true ->
  fst (Server.removeFile env p w) = Ok tt /\
  (fs (snd (Server.removeFile env p w)) !! q = fs w !! q \/
   q = Path.resolve (cwd env) p /\ Spec.within env p /\
   fs w !! q = Some RegularFile /\
   fs (snd (Server.removeFile env p w)) !! q = None).
Proof.
  intros Habs.
  destruct (removeFile_cases env p w)
    as [[_ ->] | [(_ & _ & ->) | [(key & Hin & Hk & ->) | (key & _ & _ & ->)]]];
    cbn [fst snd fs]; (split; [done|]); try by left.
  apply stat_resolve in Hk as [-> Hk]; [|done].
  destruct (decide (q = Path.resolve (cwd env) p)) as [->|Hq].
  - right. apply insideUploads_within in Hin; [|done].
    repeat split; try done. apply lookup_delete_eq.
  - left. by apply lookup_delete_ne.
Qed.

Lemma removeFile_touches_one_entry_witness :
  fs (snd (Server.removeFile sample_env "/srv/app/uploads/../.env"
             uploads_only)) !! "/srv/app/uploads"
  = fs uploads_only !! "/srv/app/uploads".
Proof.
  destruct (removeFile_touches_one_entry sample_env
              "/srv/app/uploads/../.env" uploads_only "/srv/app/uploads"
              eq_refl) as [_ [H | (H & _)]]; [exact H|].
  vm_compute in H. discriminate H.
Defined.



End GuardMore.

(** ** Further properties: an upload from arrival to removal *)

Section RoundTrip.

Lemma upload_is_stored_inside_witness :
  Server.insideUploads sample_env "/srv/app/uploads/17-5-cv.pdf" = true.
Proof.
  pose (r := Server.upload_single sample_env 17 5 (Some cv_part) uploads_only).
  assert (r = (Ok (Some (Server.mkUploaded "/srv/app/uploads/17-5-cv.pdf"
                           "cv.pdf" "application/pdf" 52000)), snd r)) as Hr
    by (by vm_compute).
  exact (proj1 (proj2 (proj2
           (upload_is_stored_inside sample_env 17 5 cv_part _ uploads_only
              (snd r) eq_refl eq_refl eq_refl Hr)))).
Defined.



End RoundTrip.

(** ** Further properties: the access filter and the second deployment *)

Section AccessMore.

(** X14: the access filter compares the request path letter by letter.
    It answers 403 to each of its six paths, yet lets through every path
    that starts with ["/./"], although [path.normalize] maps ["/./" + p]
    to the same path as ["/" + p]. *)
Theorem access_filter_is_literal (p : string) :
  Forall (λ b, Access.blockSensitive b = Access.Answer 403 "Access denied")
    Access.blockedFiles /\
  Access.blockSensitive ("/./" +:+ p) = Access.Next /\
  Path.normalize ("/./" +:+ p) = Path.normalize ("/" +:+ p).
Proof.
  split; [by repeat constructor|].
  split; [reflexivity|].
  unfold Path.normalize.
  change (String.eqb ("/./" +:+ p) "") with false.
  change (String.eqb ("/" +:+ p) "") with false.
  change (Path.isAbsolute ("/./" +:+ p)) with true.
  change (Path.isAbsolute ("/" +:+ p)) with true.
  change (Path.normalizeString ("/./" +:+ p) (negb true))
    with (Path.normalizeString ("/" +:+ p) (negb true)).
  assert (Str.endsWith ("/./" +:+ p) "/" = Str.endsWith ("/" +:+ p) "/")
    as ->; [|done].
  destruct p as [|c p]; [done|]. by rewrite !endsWith_app.
Qed.

(** X15: the second deployment relays every request. Whatever the body
    holds, and be it empty, its handler never throws, calls [sendMessage]
    exactly once and answers exactly once: 200 when the bot API replies
    [ok], 500 otherwise. *)
Theorem legacy_relays_every_request (env : Env) (body : Req.MessageBody)
    (w : World) :
  fst (Legacy.send_message env body w) = Ok tt /\
  fs (snd (Legacy.send_message env body w)) = fs w /\
  exists c r,
    outbound (trace (snd (Legacy.send_message env body w)))
    = outbound (trace w) ++ [c] /\
    url c = sendMessage_url env /\
    responses (trace (snd (Legacy.send_message env body w)))
    = responses (trace w) ++ [r] /\
    (Res.status r, Res.success r)
    = (if telegram env c is Resolves true then (200, true) else (500, false)).
Proof.
  rewrite legacy_send_message_run. cbn [fst snd fs trace].
  split; [done|]. split; [done|].
  exists (legacy_call env body).
  rewrite !outbound_app, !responses_app, legacy_after_outbound, app_nil_r.
  destruct (telegram env (legacy_call env body)) as [e|[|]];
    eexists; cbn; rewrite ?app_nil_r; by repeat split.
Qed.

End AccessMore.
